(** * freegeoip: the database handle of [db.go]

    A shallow embedding of [src/db.go]: the [DB] struct, its notification
    channels, the install step [setReader], the loader [openFile], the
    watcher loop [watchEvents], the update scheduler [autoUpdate] with
    [runUpdate], [needUpdate], [download] and [renameFile], and the public
    methods [Lookup], [Date] and [Close].

    Conventions.
    - Go's [int], [int64] and [time.Duration] are [Z] with the 64-bit
      wrap-around written out ([wrap64]); [int] is taken to be 64 bits wide.
    - A Go [error] is its message; [nil] is [None].
    - [setReader], [sendError], [Lookup], [Date] and [Close] hold [db.mu] for
      their whole body, so each is one atomic step of the model and an
      execution of several goroutines is an interleaving of such steps.
      [openFile] holds no lock between reading the file, inspecting it and
      the install: [openFile] below is the load that nothing interrupts, and
      the interrupted one is the install step alone, [OpSetReader], with
      whatever the two earlier calls returned, or [openFileStat] where the
      file that is inspected matters.
    - The file system, the clock, the HTTP peer, gzip and the maxminddb
      decoder are outside [db.go]; they are the [World] and the [Env] below. *)

From stdpp Require Import gmap strings list.
From Stdlib Require Import ZArith Lia Ascii DecimalString.
From Stdlib Require DecimalPos.

Open Scope string_scope.
Open Scope Z_scope.

(** ** Go values *)

Definition error := string.

Inductive goval (A : Type) : Type :=
| Val (a : A)
| Fail (e : error).
Arguments Val {A} a.
Arguments Fail {A} e.

Definition bytes := list Byte.byte.

(** [len(b)] as an [int64]. *)
Definition blen (b : bytes) : Z := Z.of_nat (length b).

Definition minInt64 : Z := - 2 ^ 63.
Definition maxInt64 : Z := 2 ^ 63 - 1.

(** Two's complement wrap-around of 64-bit signed arithmetic. *)
Definition wrap64 (z : Z) : Z := (z + 2 ^ 63) mod 2 ^ 64 - 2 ^ 63.

Module time.

(** [time.Duration]: a count of nanoseconds in an [int64]. *)
Definition Duration := Z.
Definition Nanosecond : Duration := 1.
Definition Second : Duration := 1000000000.

(** [time.Time]: an instant, in nanoseconds since the zero instant, and a
    location; the [nil] location means UTC. *)
Record Time := mkTime { instant : Z; loc : option string }.

(** The zero value of [time.Time]. *)
Definition zero : Time := {| instant := 0; loc := None |}.

(** [t.UTC()]: same instant, location UTC. *)
Definition UTC (t : Time) : Time := {| instant := instant t; loc := None |}.

(** [t.Before(u)] and [t.Equal(u)] compare instants only. *)
Definition Before (t u : Time) : bool := instant t <? instant u.
Definition Equal (t u : Time) : bool := instant t =? instant u.

End time.

(** ** Channels

    A Go channel: the buffered values (oldest first), the capacity and whether
    [close] was called. *)

Module chan.

Record t (A : Type) := mk { buf : list A; cap : nat; closed : bool }.
Arguments mk {A} buf cap closed.
Arguments buf {A} _.
Arguments cap {A} _.
Arguments closed {A} _.

(** [make(chan A, n)] *)
Definition make {A} (n : nat) : t A := mk [] n false.

(** [close(c)]; closing a closed channel panics. *)
Definition close {A} (c : t A) : option (t A) :=
  if closed c then None else Some (mk (buf c) (cap c) true).

(** [select { case c <- v: default: }] with no receiver waiting: the send
    case panics on a closed channel, is taken when the buffer has room, and
    otherwise the default case runs. The boolean tells whether [v] was
    sent. *)
Definition trySend {A} (v : A) (c : t A) : option (t A * bool) :=
  if closed c then None
  else if bool_decide (length (buf c) < cap c)%nat
       then Some (mk (buf c ++ [v]) (cap c) false, true)
       else Some (c, false).

(** [v, ok := <-c] when it does not block: a buffered value first, then the
    zero value with [ok = false] once the channel is closed and drained.
    [None] when the receive would block. *)
Definition recv {A} (c : t A) : option (option A * t A) :=
  match buf c with
  | v :: rest => Some (Some v, mk rest (cap c) (closed c))
  | [] => if closed c then Some (None, c) else None
  end.

End chan.

(** ** The handle *)

(** A [*maxminddb.Reader] built by [maxminddb.FromBytes]: the identity of the
    allocated object and the buffer it decodes. *)
Record Reader := mkReader { rid : nat; rbuf : bytes }.

(** [type DB struct]; [mu] has no field here, see the conventions above. *)
Record DB := mkDB {
  file : string;                      (* Database file name. *)
  reader : option Reader;             (* Actual db object; [nil] is [None]. *)
  notifyQuit : chan.t unit;           (* Stop auto-update and watch goroutines. *)
  notifyOpen : chan.t string;         (* Notify when a db file is open. *)
  notifyError : chan.t error;         (* Notify when an error occurs. *)
  closed : bool;                      (* Mark this db as closed. *)
  lastUpdated : time.Time;            (* Last time the db was updated. *)
  updateInterval : time.Duration;     (* Update interval. *)
  maxRetryInterval : time.Duration;   (* Max retry interval in case of failure. *)
}.

Definition ErrUnavailable : error := "No database available".

(** ** The world outside the handle *)

(** A node of the file system, keyed by its full path. *)
Inductive Node :=
| File (data : bytes) (mtime : time.Time)
| Dir.

Inductive ChanName := QuitC | OpenC | ErrorC.

Global Instance ChanName_eq_dec : EqDecision ChanName.
Proof. solve_decision. Defined.

(** What the handle does to its collaborators, most recent first. *)
Inductive Effect :=
| ReaderClosed (id : nat)          (* [reader.Close()] *)
| ChanClosed (c : ChanName)        (* [close(ch)] *)
| Slept (d : time.Duration)        (* [time.Sleep(d)] or a wait on [time.After(d)] *)
| HeadRequest (url : string)       (* [http.Head(url)] *)
| GetRequest (url : string)        (* [http.Get(url)] *)
| WatcherClosed.                   (* [watcher.Close()] *)

Global Instance Effect_eq_dec : EqDecision Effect.
Proof. solve_decision. Defined.

Record World := mkWorld {
  db : DB;                      (* the handle *)
  fs : gmap string Node;        (* the file system *)
  clock : Z;                    (* [time.Now()], nanoseconds since the zero instant *)
  nextReader : nat;             (* identity of the next allocated decoder *)
  log : list Effect;
}.

(** The body of an HTTP response: the bytes it delivers, then end of stream
    or a read error. *)
Record Body := mkBody { delivered : bytes; readError : option error }.

(** [*fsnotify.FileEvent] *)
Record FileEvent := mkEvent { Name : string; IsCreate : bool; IsModify : bool }.

(** The collaborators of [db.go]. *)
Record Env := mkEnv {
  os_TempDir : string;
  (* [gzip.NewReader]: checks the header, yields the compressed stream *)
  gzip_NewReader : bytes -> goval bytes;
  (* [ioutil.ReadAll] of a gzip stream: the decompressed bytes *)
  ioutil_ReadAll : bytes -> goval bytes;
  (* the error of [maxminddb.FromBytes], if it rejects the buffer *)
  maxminddb_reject : bytes -> option error;
  (* [reader.Lookup(addr, result)]: what is stored in [result], the error *)
  maxminddb_Lookup : bytes -> bytes -> option string * option error;
  (* [http.Head]: the value of [resp.Header.Get("Content-Length")] of the
     response, empty when the header is absent; the transport fails the
     request when the header is there and is not a number *)
  http_Head : string -> goval string;
  http_Get : string -> goval Body;
  fsnotify_NewWatcher : option error;
  fsnotify_Watch : string -> option error;
}.

(** ** Computations: state passing over the world, with panics *)

Inductive Res (A : Type) : Type :=
| Done (a : A)
| Panic (msg : string).
Arguments Done {A} a.
Arguments Panic {A} msg.

Definition M (A : Type) : Type := World -> Res (A * World).

Definition ret {A} (a : A) : M A := fun w => Done (a, w).

Definition bind {A B} (m : M A) (k : A -> M B) : M B :=
  fun w => match m w with
           | Done (a, w') => k a w'
           | Panic msg => Panic msg
           end.

Notation "x <~ m ;; k" := (bind m (fun x => k))
  (at level 100, m at next level, right associativity).
Notation "m ;;; k" := (bind m (fun _ => k))
  (at level 100, right associativity).

Definition panic {A} (msg : string) : M A := fun _ => Panic msg.

Definition getDB : M DB := fun w => Done (db w, w).
Definition putDB (d : DB) : M unit :=
  fun w => Done (tt, mkWorld d (fs w) (clock w) (nextReader w) (log w)).
Definition getFS : M (gmap string Node) := fun w => Done (fs w, w).
Definition putFS (f : gmap string Node) : M unit :=
  fun w => Done (tt, mkWorld (db w) f (clock w) (nextReader w) (log w)).
Definition emit (e : Effect) : M unit :=
  fun w => Done (tt, mkWorld (db w) (fs w) (clock w) (nextReader w) (e :: log w)).

(** [time.Now()] in the local time zone. *)
Definition time_Now : M time.Time :=
  fun w => Done ({| time.instant := clock w; time.loc := Some "Local" |}, w).

(** A pause of [d]: the clock moves on by [d] (not backwards for [d <= 0]). *)
Definition pause (d : time.Duration) : M unit :=
  fun w => Done (tt, mkWorld (db w) (fs w) (clock w + Z.max 0 d) (nextReader w)
                             (Slept d :: log w)).

(** Allocation of a decoder object. *)
Definition newReaderObject (b : bytes) : M Reader :=
  fun w => Done (mkReader (nextReader w) b,
                 mkWorld (db w) (fs w) (clock w) (S (nextReader w)) (log w)).

(** [reader.Close()] *)
Definition Reader_Close (r : Reader) : M unit := emit (ReaderClosed (rid r)).

(** ** Paths and the file system

    The model of the [os] and [path/filepath] calls that [db.go] makes. Paths
    are slash-separated; the file system is keyed by the paths as they are
    given. The root [/] and the working directory [.] always exist. *)

Definition isSep (c : ascii) : bool := Ascii.eqb c "/"%char.

Fixpoint dropWhile {A} (p : A -> bool) (l : list A) : list A :=
  match l with
  | x :: l' => if p x then dropWhile p l' else l
  | [] => []
  end.

(** The elements of a path between its separators; [cur] is the element
    being read, backwards. *)
Fixpoint splitSep (cs : list ascii) (cur : list ascii) : list (list ascii) :=
  match cs with
  | [] => [rev cur]
  | c :: cs' => if isSep c then rev cur :: splitSep cs' [] else splitSep cs' (c :: cur)
  end.

(** The elements that [filepath.Clean] keeps, [kept] backwards: empty
    elements and [.] are dropped, [..] removes the element before it, is
    dropped at the root and is kept at the start of a path that is not
    rooted. *)
Fixpoint cleanElems (rooted : bool) (elems kept : list (list ascii)) : list (list ascii) :=
  match elems with
  | [] => rev kept
  | e :: rest =>
      if bool_decide (e = [] ∨ e = ["."%char]) then cleanElems rooted rest kept
      else if bool_decide (e = ["."%char; "."%char]) then
        match kept with
        | top :: kept' =>
            if bool_decide (top = ["."%char; "."%char])
            then cleanElems rooted rest (e :: kept)
            else cleanElems rooted rest kept'
        | [] => if rooted then cleanElems rooted rest [] else cleanElems rooted rest [e]
        end
      else cleanElems rooted rest (e :: kept)
  end.

Fixpoint joinSep (elems : list (list ascii)) : list ascii :=
  match elems with
  | [] => []
  | [e] => e
  | e :: rest => (e ++ "/"%char :: joinSep rest)%list
  end.

(** [filepath.Clean] *)
Definition filepath_Clean (p : string) : string :=
  let cs := String.list_ascii_of_string p in
  let rooted := match cs with c :: _ => isSep c | [] => false end in
  match cleanElems rooted (splitSep cs []) [], rooted with
  | [], true => "/"
  | [], false => "."
  | elems, true => String "/"%char (String.string_of_list_ascii (joinSep elems))
  | elems, false => String.string_of_list_ascii (joinSep elems)
  end.

(** [filepath.Dir]: the path up to its last separator, cleaned. *)
Definition filepath_Dir (p : string) : string :=
  filepath_Clean
    (String.string_of_list_ascii
       (rev (dropWhile (fun c => negb (isSep c)) (rev (String.list_ascii_of_string p))))).

(** [strings.Join] *)
Fixpoint strings_Join (elem : list string) (sep : string) : string :=
  match elem with
  | [] => ""
  | [e] => e
  | e :: rest => e +:+ sep +:+ strings_Join rest sep
  end.

(** [filepath.Join]: the elements from the first non-empty one on, joined
    by the separator and cleaned. *)
Fixpoint filepath_Join (elem : list string) : string :=
  match elem with
  | [] => ""
  | EmptyString :: rest => filepath_Join rest
  | _ => filepath_Clean (strings_Join elem "/")
  end.

(** [fmt.Sprintf("%d", n)] *)
Definition sprintd (n : Z) : string := DecimalString.NilZero.string_of_int (Z.to_int n).

Definition node (f : gmap string Node) (p : string) : option Node :=
  if bool_decide (p = "/" ∨ p = ".") then Some Dir else f !! p.

(** [os.FileInfo] *)
Record FileInfo := mkInfo { Size : Z; ModTime : time.Time; IsDir : bool }.

(** [os.Stat]. The size and the modification time of a directory depend on
    the system and [db.go] meets them only if the database path names a
    directory; they are 0 and the zero time here. *)
Definition os_Stat (p : string) : M (goval FileInfo) :=
  f <~ getFS ;;
  match node f p with
  | Some (File data mtime) => ret (Val (mkInfo (blen data) mtime false))
  | Some Dir => ret (Val (mkInfo 0 time.zero true))
  | None => ret (Fail ("stat " +:+ p +:+ ": no such file or directory"))
  end.

(** [os.Open] and what reading the opened file to its end yields. Opening a
    directory succeeds and its first read fails; the callers in [db.go]
    return the error of either call alike. *)
Definition os_Open (p : string) : M (goval bytes) :=
  f <~ getFS ;;
  match node f p with
  | Some (File data _) => ret (Val data)
  | Some Dir => ret (Fail ("read " +:+ p +:+ ": is a directory"))
  | None => ret (Fail ("open " +:+ p +:+ ": no such file or directory"))
  end.

(** [os.Mkdir] *)
Definition os_Mkdir (p : string) (f : gmap string Node) : goval (gmap string Node) :=
  match node f p, node f (filepath_Dir p) with
  | Some _, _ => Fail ("mkdir " +:+ p +:+ ": file exists")
  | None, Some Dir => Val (<[p := Dir]> f)
  | None, Some (File _ _) => Fail ("mkdir " +:+ p +:+ ": not a directory")
  | None, None => Fail ("mkdir " +:+ p +:+ ": no such file or directory")
  end.

(** [os.MkdirAll]: the recursion on the parent, bounded by the path length. *)
Fixpoint mkdirAll (fuel : nat) (p : string) (f : gmap string Node)
  : goval (gmap string Node) :=
  match node f p with
  | Some Dir => Val f
  | Some (File _ _) => Fail ("mkdir " +:+ p +:+ ": not a directory")
  | None =>
      match fuel with
      | O => Fail ("mkdir " +:+ p +:+ ": no such file or directory")
      | S fuel' =>
          match mkdirAll fuel' (filepath_Dir p) f with
          | Val f' => os_Mkdir p f'
          | Fail e => Fail e
          end
      end
  end.

Definition os_MkdirAll (p : string) : M (option error) :=
  f <~ getFS ;;
  match mkdirAll (String.length p) p f with
  | Val f' => putFS f' ;;; ret None
  | Fail e => ret (Some e)
  end.

(** [os.Create]: creates or truncates the file. *)
Definition os_Create (p : string) : M (option error) :=
  f <~ getFS ;;
  now <~ time_Now ;;
  match node f p, node f (filepath_Dir p) with
  | Some Dir, _ => ret (Some ("open " +:+ p +:+ ": is a directory"))
  | _, Some Dir => putFS (<[p := File [] now]> f) ;;; ret None
  | _, _ => ret (Some ("open " +:+ p +:+ ": no such file or directory"))
  end.

(** [io.Copy(f, body)] into the open file [p]: what the body delivers is
    written, and a read error of the body is the error of the copy. *)
Definition io_Copy (p : string) (body : Body) : M (option error) :=
  f <~ getFS ;;
  now <~ time_Now ;;
  putFS (<[p := File (delivered body) now]> f) ;;;
  ret (readError body).

(** Is [q] the path [p] or a path below it? *)
Definition below (p q : string) : bool :=
  String.eqb p q || String.prefix (p +:+ "/") q.

(** The file system after the directory [old] was moved to [new]: what was
    at [new] is gone and every path at or below [old] is now at or below
    [new]. *)
Definition moveTree (old new : string) (f : gmap string Node) : gmap string Node :=
  list_to_map
    (map (fun kv : string * Node =>
            (if below old kv.1
             then new +:+ String.substring (String.length old)
                                           (String.length kv.1 - String.length old) kv.1
             else kv.1, kv.2))
         (map_to_list (filter (fun kv => below new kv.1 = false) f))).

(** [os.Rename]. Go refuses a new name that is a directory. A file replaces
    a file; a directory moves to a free name with what is below it. *)
Definition os_Rename (old new : string) : M (option error) :=
  f <~ getFS ;;
  match node f old, node f new, node f (filepath_Dir new) with
  | None, _, _ => ret (Some ("rename " +:+ old +:+ ": no such file or directory"))
  | Some _, Some Dir, _ => ret (Some ("rename " +:+ new +:+ ": file exists"))
  | Some Dir, Some (File _ _), _ =>
      ret (Some ("rename " +:+ new +:+ ": not a directory"))
  | Some Dir, None, parent =>
      if bool_decide (old = "/" ∨ old = ".")
      then ret (Some ("rename " +:+ old +:+ ": device or resource busy"))
      else if below old new
      then ret (Some ("rename " +:+ old +:+ ": invalid argument"))
      else
        match parent with
        | Some Dir => putFS (moveTree old new f) ;;; ret None
        | _ => ret (Some ("rename " +:+ new +:+ ": no such file or directory"))
        end
  | Some (File data mtime), _, Some Dir =>
      putFS (<[new := File data mtime]> (delete old f)) ;;; ret None
  | Some (File _ _), _, _ =>
      ret (Some ("rename " +:+ new +:+ ": no such file or directory"))
  end.

(** [os.RemoveAll]: removes the path and what is below it; no error when the
    path does not exist. *)
Definition os_RemoveAll (p : string) : M (option error) :=
  f <~ getFS ;;
  putFS (filter (fun kv => below p kv.1 = false) f) ;;;
  ret None.

Definition exists_file (w : World) (p : string) : bool :=
  match fs w !! p with Some _ => true | None => false end.

(** ** [strconv.Atoi]

    The standard library's parser, as [db.go] uses it on the length header:
    an optional sign and decimal digits. A syntax error yields 0, a value out
    of range yields the nearest bound; both come with an error. *)

Module strconv.

Definition ErrSyntax : error := "invalid syntax".
Definition ErrRange : error := "value out of range".

Definition maxUint64 : Z := 2 ^ 64 - 1.

Definition digit (c : ascii) : option Z :=
  let n := Z.of_nat (nat_of_ascii c) - 48 in
  if (0 <=? n) && (n <=? 9) then Some n else None.

(** The loop of [ParseUint(s, 10, 64)] with accumulator [n]. *)
Fixpoint parseDigits (cs : list ascii) (n : Z) : Z * option error :=
  match cs with
  | [] => (n, None)
  | c :: cs' =>
      match digit c with
      | None => (0, Some ErrSyntax)
      | Some d =>
          if n >=? maxUint64 / 10 + 1 then (maxUint64, Some ErrRange)
          else
            let n1 := n * 10 + d in
            if n1 >? maxUint64 then (maxUint64, Some ErrRange)
            else parseDigits cs' n1
      end
  end.

Definition ParseUint (cs : list ascii) : Z * option error :=
  match cs with
  | [] => (0, Some ErrSyntax)
  | _ => parseDigits cs 0
  end.

(** [ParseInt(s, 10, 64)] *)
Definition ParseInt (s : string) : Z * option error :=
  match String.list_ascii_of_string s with
  | [] => (0, Some ErrSyntax)
  | c :: cs' =>
      let neg := Ascii.eqb c "-"%char in
      let body := if neg || Ascii.eqb c "+"%char then cs' else c :: cs' in
      match ParseUint body with
      | (un, Some e) =>
          if String.eqb e ErrRange then
            if neg then (minInt64, Some ErrRange) else (maxInt64, Some ErrRange)
          else (0, Some e)
      | (un, None) =>
          if negb neg && (un >=? 2 ^ 63) then (maxInt64, Some ErrRange)
          else if neg && (un >? 2 ^ 63) then (minInt64, Some ErrRange)
          else (if neg then - un else un, None)
      end
  end.

(** [Atoi(s)]: its fast path for short inputs computes what [ParseInt]
    computes. *)
Definition Atoi (s : string) : Z * option error :=
  match ParseInt s with
  | (n, Some e) => (n, Some ("strconv.Atoi: parsing " +:+ s +:+ ": " +:+ e))
  | (n, None) => (n, None)
  end.

End strconv.

(** ** The code of [db.go] *)

Definition with_reader (r : option Reader) (d : DB) : DB :=
  mkDB (file d) r (notifyQuit d) (notifyOpen d) (notifyError d) (closed d)
       (lastUpdated d) (updateInterval d) (maxRetryInterval d).
Definition with_notifyQuit (c : chan.t unit) (d : DB) : DB :=
  mkDB (file d) (reader d) c (notifyOpen d) (notifyError d) (closed d)
       (lastUpdated d) (updateInterval d) (maxRetryInterval d).
Definition with_notifyOpen (c : chan.t string) (d : DB) : DB :=
  mkDB (file d) (reader d) (notifyQuit d) c (notifyError d) (closed d)
       (lastUpdated d) (updateInterval d) (maxRetryInterval d).
Definition with_notifyError (c : chan.t error) (d : DB) : DB :=
  mkDB (file d) (reader d) (notifyQuit d) (notifyOpen d) c (closed d)
       (lastUpdated d) (updateInterval d) (maxRetryInterval d).
Definition with_closed (b : bool) (d : DB) : DB :=
  mkDB (file d) (reader d) (notifyQuit d) (notifyOpen d) (notifyError d) b
       (lastUpdated d) (updateInterval d) (maxRetryInterval d).
Definition with_lastUpdated (t : time.Time) (d : DB) : DB :=
  mkDB (file d) (reader d) (notifyQuit d) (notifyOpen d) (notifyError d) (closed d)
       t (updateInterval d) (maxRetryInterval d).

(** The struct literal of [Open] and [OpenURL]; the fields it does not name
    hold their zero values. *)
Definition newDB (dsn : string) (updateInterval maxRetryInterval : time.Duration) : DB :=
  {| file := dsn;
     reader := None;
     notifyQuit := chan.make 0;
     notifyOpen := chan.make 1;
     notifyError := chan.make 1;
     closed := false;
     lastUpdated := time.zero;
     updateInterval := updateInterval;
     maxRetryInterval := maxRetryInterval |}.

(** [close(ch)] on a field of the handle. *)
Definition closeChan (c : ChanName) : M unit :=
  d <~ getDB ;;
  let closedChannel : M unit := panic "close of closed channel" in
  match c with
  | QuitC =>
      match chan.close (notifyQuit d) with
      | Some q => putDB (with_notifyQuit q d) ;;; emit (ChanClosed QuitC)
      | None => closedChannel
      end
  | OpenC =>
      match chan.close (notifyOpen d) with
      | Some q => putDB (with_notifyOpen q d) ;;; emit (ChanClosed OpenC)
      | None => closedChannel
      end
  | ErrorC =>
      match chan.close (notifyError d) with
      | Some q => putDB (with_notifyError q d) ;;; emit (ChanClosed ErrorC)
      | None => closedChannel
      end
  end.

(** What one pass of a [select] received. *)
Inductive WatchSel :=
| GotEvent (ev : FileEvent)      (* [case ev := <-watcher.Event] *)
| GotError (e : error)           (* [case <-watcher.Error] *)
| GotQuit.                       (* [case <-db.notifyQuit] *)

Inductive UpdateSel :=
| QuitFired                      (* [case <-db.notifyQuit] *)
| TimerFired.                    (* [case <-time.After(sleep)] *)

(** How a bounded run of a [for] loop ended: back at the top of the loop,
    returned, or waiting for a case that is not ready. *)
Inductive Loop := Continue | Return | Blocked.

(** The local variables of [autoUpdate]. *)
Record Backoff := mkBackoff { sleep : time.Duration; retrying : bool }.

(** [time.Time.UnixNano] *)
Definition UnixNano (t : time.Time) : Z :=
  wrap64 (time.instant t - 62135596800 * time.Second).

Section Code.

Variable env : Env.

(** [defaultDB]: local cached copy of a database downloaded from a URL. *)
Definition defaultDB : string :=
  filepath_Join [os_TempDir env; "freegeoip"; "db.gz"].

Definition newReader (dbfile : string) : M (goval Reader) :=
  o <~ os_Open dbfile ;;
  match o with
  | Fail err => ret (Fail err)
  | Val f =>
      match gzip_NewReader env f with
      | Fail err => ret (Fail err)
      | Val gzf =>
          match ioutil_ReadAll env gzf with
          | Fail err => ret (Fail err)
          | Val b =>
              match maxminddb_reject env b with
              | Some err => ret (Fail err)
              | None => r <~ newReaderObject b ;; ret (Val r)
              end
          end
      end
  end.

Definition setReader (rd : Reader) (modtime : time.Time) : M unit :=
  d <~ getDB ;;
  if closed d then Reader_Close rd
  else
    match reader d with
    | Some old => Reader_Close old
    | None => ret tt
    end ;;;
    putDB (with_lastUpdated (time.UTC modtime) (with_reader (Some rd) d)) ;;;
    d <~ getDB ;;
    match chan.trySend (file d) (notifyOpen d) with
    | Some (c, _) => putDB (with_notifyOpen c d)
    | None => panic "send on closed channel"
    end.

(** [openFile], run without another step between its calls. *)
Definition openFile : M (option error) :=
  d <~ getDB ;;
  r <~ newReader (file d) ;;
  match r with
  | Fail err => ret (Some err)
  | Val rd =>
      st <~ os_Stat (file d) ;;
      match st with
      | Fail err => ret (Some err)
      | Val stat => setReader rd (ModTime stat) ;;; ret None
      end
  end.

(** [openFile] from its call of [os.Stat] on, holding the decoder [rd] that
    [newReader] returned. No lock is held between the two calls: other
    goroutines and other processes can run in between, so the file that is
    inspected here need not be the file that was read. *)
Definition openFileStat (rd : Reader) : M (option error) :=
  d <~ getDB ;;
  st <~ os_Stat (file d) ;;
  match st with
  | Fail err => ret (Some err)
  | Val stat => setReader rd (ModTime stat) ;;; ret None
  end.

Definition makeDir : M (goval string) :=
  d <~ getDB ;;
  let dbdir := filepath_Dir (file d) in
  st <~ os_Stat dbdir ;;
  match st with
  | Fail _ =>
      err <~ os_MkdirAll dbdir ;;
      match err with
      | Some err => ret (Fail err)
      | None => ret (Val dbdir)
      end
  | Val _ => ret (Val dbdir)
  end.

(** One pass of the loop of [watchEvents], given what its [select]
    received; the result of [openFile] is dropped. *)
Definition watchEventsPass (sel : WatchSel) : M Loop :=
  match sel with
  | GotEvent ev =>
      d <~ getDB ;;
      (if String.eqb (Name ev) (file d) && (IsCreate ev || IsModify ev)
       then openFile ;;; ret tt
       else ret tt) ;;;
      pause time.Second ;;;  (* Suppress high-rate events. *)
      ret Continue
  | GotError _ =>
      pause time.Second ;;;
      ret Continue
  | GotQuit =>
      d <~ getDB ;;
      match chan.recv (notifyQuit d) with
      | Some _ => emit WatcherClosed ;;; ret Return
      | None => ret Blocked
      end
  end.

(** [watchEvents] along the receptions [sels]; [Continue] when they are
    used up and the loop is back in its [select]. *)
Fixpoint watchEvents (sels : list WatchSel) : M Loop :=
  match sels with
  | [] => ret Continue
  | sel :: rest =>
      r <~ watchEventsPass sel ;;
      match r with
      | Continue => watchEvents rest
      | _ => ret r
      end
  end.

(** The goroutine [go db.watchEvents(watcher)] runs as passes of
    [watchEventsPass] interleaved with the other steps. *)
Definition watchFile : M (option error) :=
  match fsnotify_NewWatcher env with
  | Some err => ret (Some err)
  | None =>
      r <~ makeDir ;;
      match r with
      | Fail err => ret (Some err)
      | Val dbdir => ret (fsnotify_Watch env dbdir)
      end
  end.

Definition needUpdate (url : string) : M (bool * option error) :=
  d <~ getDB ;;
  st <~ os_Stat (file d) ;;
  match st with
  | Fail _ => ret (true, None)  (* Local db is missing, must be downloaded. *)
  | Val stat =>
      emit (HeadRequest url) ;;;
      match http_Head env url with
      | Fail err => ret (false, Some err)
      | Val contentLength =>
          let '(size, _) := strconv.Atoi contentLength in
          if negb (Size stat =? size) then ret (true, None)
          else ret (false, None)
      end
  end.

Definition download (url : string) : M (string * option error) :=
  emit (GetRequest url) ;;;
  match http_Get env url with
  | Fail err => ret ("", Some err)
  | Val body =>
      now <~ time_Now ;;
      let tmpfile :=
        filepath_Join [os_TempDir env;
                       "_freegeoip." +:+ sprintd (UnixNano now) +:+ ".db.gz"] in
      err <~ os_Create tmpfile ;;
      match err with
      | Some err => ret ("", Some err)
      | None =>
          err <~ io_Copy tmpfile body ;;
          match err with
          | Some err => ret ("", Some err)
          | None => ret (tmpfile, None)
          end
      end
  end.

Definition renameFile (name : string) : M (option error) :=
  d <~ getDB ;;
  os_Rename (file d) (file d +:+ ".bak") ;;;  (* Optional, might fail. *)
  r <~ makeDir ;;
  match r with
  | Fail err => ret (Some err)
  | Val _ => os_Rename name (file d)
  end.

Definition runUpdate (url : string) : M (option error) :=
  r <~ needUpdate url ;;
  match r with
  | (_, Some err) => ret (Some err)
  | (false, None) => ret None
  | (true, None) =>
      dl <~ download url ;;
      match dl with
      | (_, Some err) => ret (Some err)
      | (tmpfile, None) =>
          err <~ renameFile tmpfile ;;
          match err with
          | Some _ => os_RemoveAll tmpfile ;;; ret err  (* Cleanup the tempfile if renaming failed. *)
          | None => ret err
          end
      end
  end.

Definition sendError (err : error) : M unit :=
  d <~ getDB ;;
  if closed d then ret tt
  else
    match chan.trySend err (notifyError d) with
    | Some (c, _) => putDB (with_notifyError c d)
    | None => panic "send on closed channel"
    end.

(** The update of [sleep] and [retrying] in the loop of [autoUpdate], after
    a cycle that failed or not. *)
Definition nextBackoff (maxRetry update : time.Duration) (failed : bool)
           (st : Backoff) : Backoff :=
  if failed then
    if negb (retrying st) then
      {| retrying := true; sleep := 5 * time.Second |}
    else
      let doubled := wrap64 (sleep st * 2) in
      {| retrying := true;
         sleep := if doubled >? maxRetry then maxRetry else doubled |}
  else
    {| retrying := false; sleep := update |}.

(** The body of the loop of [autoUpdate] up to its [select]. *)
Definition autoUpdateCycle (url : string) (st : Backoff) : M Backoff :=
  err <~ runUpdate url ;;
  match err with
  | Some e => sendError ("Database update failed: " +:+ e)
  | None => ret tt
  end ;;;
  d <~ getDB ;;
  ret (nextBackoff (maxRetryInterval d) (updateInterval d)
                   (bool_decide (err ≠ None)) st).

(** The [select] at the end of the loop body. *)
Definition autoUpdateWait (sel : UpdateSel) (st : Backoff) : M Loop :=
  match sel with
  | QuitFired =>
      d <~ getDB ;;
      match chan.recv (notifyQuit d) with
      | Some _ => ret Return
      | None => ret Blocked
      end
  | TimerFired => pause (sleep st) ;;; ret Continue
  end.

Fixpoint autoUpdateFrom (url : string) (sels : list UpdateSel) (st : Backoff)
  : M (Loop * Backoff) :=
  match sels with
  | [] => ret (Continue, st)
  | sel :: rest =>
      st' <~ autoUpdateCycle url st ;;
      r <~ autoUpdateWait sel st' ;;
      match r with
      | Continue => autoUpdateFrom url rest st'
      | _ => ret (r, st')
      end
  end.

(** [autoUpdate]: [var sleep time.Duration] and [var retrying bool] start
    at their zero values. *)
Definition autoUpdate (url : string) (sels : list UpdateSel) : M (Loop * Backoff) :=
  autoUpdateFrom url sels {| sleep := 0; retrying := false |}.

Definition Date : M time.Time :=
  d <~ getDB ;;
  ret (lastUpdated d).

Definition Lookup (addr : bytes) : M (option string * option error) :=
  d <~ getDB ;;
  match reader d with
  | Some rd => ret (maxminddb_Lookup env (rbuf rd) addr)
  | None => ret (None, Some ErrUnavailable)
  end.

Definition Close : M unit :=
  d <~ getDB ;;
  (if negb (closed d) then
     putDB (with_closed true d) ;;;
     closeChan QuitC ;;;
     closeChan OpenC ;;;
     closeChan ErrorC
   else ret tt) ;;;
  d <~ getDB ;;
  match reader d with
  | Some rd => Reader_Close rd ;;; d <~ getDB ;; putDB (with_reader None d)
  | None => ret tt
  end.

(** [Open]: the error it returns; the handle is returned when there is
    none. *)
Definition Open (dsn : string) : M (option error) :=
  putDB (newDB dsn 0 0) ;;;
  err <~ openFile ;;
  match err with
  | Some err => Close ;;; ret (Some err)
  | None =>
      err <~ watchFile ;;
      match err with
      | Some err =>
          Close ;;; ret (Some ("fsnotify failed for " +:+ dsn +:+ ": " +:+ err))
      | None => ret None
      end
  end.

(** [OpenURL]; the goroutine [go db.autoUpdate(url)] runs as cycles of
    [autoUpdateCycle] interleaved with the other steps. *)
Definition OpenURL (url : string) (updateInterval maxRetryInterval : time.Duration)
  : M (option error) :=
  putDB (newDB defaultDB updateInterval maxRetryInterval) ;;;
  openFile ;;;  (* Optional, might fail. *)
  err <~ watchFile ;;
  match err with
  | Some err =>
      d <~ getDB ;;
      Close ;;; ret (Some ("fsnotify failed for " +:+ file d +:+ ": " +:+ err))
  | None => ret None
  end.

End Code.

(** ** Executions

    The goroutines of a handle (callers of the public methods, the watcher,
    the scheduler, loads in flight) and its surroundings (consumers of the
    notification channels, whoever writes the database file) take turns; an
    execution is the list of their steps. The steps that run several calls
    without a lock ([OpOpenFile], [OpWatchPass], [OpUpdateCycle]) are the
    runs in which nothing comes between the calls; a run in which something
    does is a sequence of smaller steps: what such a run does to the handle
    is an install ([OpSetReader], whose decoder gets its identity when it is
    installed), a report ([OpSendError]) or a pause (the pass for a watcher
    error), and what it does to the file system is a step of the
    surroundings. *)

Inductive Op :=
| OpSetReader (b : bytes) (modtime : time.Time)
    (* the install step of a load that read and inspected its file earlier,
       with other steps in between *)
| OpOpenFile
    (* a load that nothing interrupts *)
| OpWatchFile
| OpWatchPass (sel : WatchSel)
| OpUpdateCycle (url : string) (st : Backoff)
| OpUpdateWait (sel : UpdateSel) (st : Backoff)
| OpSendError (err : error)
| OpLookup (addr : bytes)
| OpDate
| OpClose.

Inductive EnvStep :=
| RecvOpen                                            (* [<-db.NotifyOpen()] *)
| RecvError                                           (* [<-db.NotifyError()] *)
| WriteFile (p : string) (data : bytes) (mtime : time.Time)
| RemoveFile (p : string)
| Tick (d : Z).

Inductive Step :=
| Handle (op : Op)
| Outside (e : EnvStep).

Section Executions.

Variable env : Env.

Definition perform (op : Op) : M unit :=
  match op with
  | OpSetReader b modtime => rd <~ newReaderObject b ;; setReader rd modtime
  | OpOpenFile => openFile env ;;; ret tt
  | OpWatchFile => watchFile env ;;; ret tt
  | OpWatchPass sel => watchEventsPass env sel ;;; ret tt
  | OpUpdateCycle url st => autoUpdateCycle env url st ;;; ret tt
  | OpUpdateWait sel st => autoUpdateWait sel st ;;; ret tt
  | OpSendError err => sendError err
  | OpLookup addr => Lookup env addr ;;; ret tt
  | OpDate => Date ;;; ret tt
  | OpClose => Close
  end.

(** A receive that would block does not happen. *)
Definition outside (e : EnvStep) : M unit :=
  match e with
  | RecvOpen =>
      d <~ getDB ;;
      match chan.recv (notifyOpen d) with
      | Some (_, c) => putDB (with_notifyOpen c d)
      | None => ret tt
      end
  | RecvError =>
      d <~ getDB ;;
      match chan.recv (notifyError d) with
      | Some (_, c) => putDB (with_notifyError c d)
      | None => ret tt
      end
  | WriteFile p data mtime => f <~ getFS ;; putFS (<[p := File data mtime]> f)
  | RemoveFile p => f <~ getFS ;; putFS (delete p f)
  | Tick d =>
      fun w => Done (tt, mkWorld (db w) (fs w) (clock w + Z.max 0 d)
                                 (nextReader w) (log w))
  end.

Definition step (s : Step) : M unit :=
  match s with
  | Handle op => perform op
  | Outside e => outside e
  end.

Fixpoint run (steps : list Step) : M unit :=
  match steps with
  | [] => ret tt
  | s :: rest => step s ;;; run rest
  end.

(** The worlds an execution passes through, one after each step; it stops
    at a panic. *)
Fixpoint states (steps : list Step) (w : World) : list World :=
  match steps with
  | [] => []
  | s :: rest =>
      match step s w with
      | Done (_, w') => w' :: states rest w'
      | Panic _ => []
      end
  end.

End Executions.

(** How often [close] was called on a channel of the handle. *)
Definition closes (c : ChanName) (l : list Effect) : nat :=
  length (filter (fun e => e = ChanClosed c) l).

(** A handle as [Open] and [OpenURL] build it, before anything ran on it. *)
Definition fresh (w : World) : Prop :=
  (exists dsn u m, db w = newDB dsn u m) /\ forall c, closes c (log w) = 0%nat.

(** The state of the handle is coherent: the closed flag and the three
    channels agree and a closed handle holds no decoder. *)
Definition coherent (w : World) : Prop :=
  let d := db w in
  chan.closed (notifyQuit d) = closed d /\
  chan.closed (notifyOpen d) = closed d /\
  chan.closed (notifyError d) = closed d /\
  (closed d = true -> reader d = None).

(** Each channel was closed once if the handle is closed and never
    otherwise. *)
Definition closedOnce (w : World) : Prop :=
  forall c, closes c (log w) = if closed (db w) then 1%nat else 0%nat.

(** The waits of the scheduler after each of a run of cycles, given which
    cycles failed. *)
Fixpoint waits (maxRetry update : time.Duration) (failed : list bool) (st : Backoff)
  : list time.Duration :=
  match failed with
  | [] => []
  | f :: rest =>
      let st' := nextBackoff maxRetry update f st in
      sleep st' :: waits maxRetry update rest st'
  end.

(** The wait after the [k+1]-th failure in a row, as the specification gives
    it, except that the first wait is not capped. *)
Definition retryWait (maxRetry : time.Duration) (k : nat) : time.Duration :=
  match k with
  | O => 5 * time.Second
  | S _ => Z.min (5 * time.Second * 2 ^ Z.of_nat k) maxRetry
  end.

(** Does this reception make [watchEvents] reload the file [f]? *)
Definition triggers (f : string) (sel : WatchSel) : bool :=
  match sel with
  | GotEvent ev => String.eqb (Name ev) f && (IsCreate ev || IsModify ev)
  | _ => false
  end.

(** How many of the receptions [sels] make [watchEvents] reload [f]. *)
Fixpoint reloads (f : string) (sels : list WatchSel) : nat :=
  match sels with
  | [] => 0
  | sel :: rest => ((if triggers f sel then 1 else 0) + reloads f rest)%nat
  end.

(** The timestamp is still zero, or a decoder is installed in an open
    handle. *)
Definition unloaded (w : World) : Prop :=
  coherent w /\
  (lastUpdated (db w) = time.zero \/ (reader (db w) <> None /\ closed (db w) = false)).

(** ** Sample worlds

    Concrete collaborators and worlds on which the statements below are
    evaluated. *)

Module Sample.

Definition bs (s : string) : bytes := String.list_byte_of_string s.

(** A decoder that accepts buffers of at least three bytes and finds one
    record for every address; gzip streams are stored uncompressed and the
    empty file has no gzip header. The remote file has five bytes. *)
Definition env : Env :=
  {| os_TempDir := "/tmp";
     gzip_NewReader := fun b => match b with [] => Fail "EOF" | _ => Val b end;
     ioutil_ReadAll := fun b => Val b;
     maxminddb_reject :=
       fun b => if bool_decide (length b < 3)%nat
                then Some "invalid MaxMind DB file" else None;
     maxminddb_Lookup := fun b addr => (Some "record", None);
     http_Head := fun url => Val "5";
     http_Get := fun url => Val (mkBody (bs "hello") None);
     fsnotify_NewWatcher := None;
     fsnotify_Watch := fun dir => None |}.

Definition at_ (n : Z) : time.Time := {| time.instant := n; time.loc := Some "Local" |}.

Definition dbfile : string := "/tmp/freegeoip/db.gz".

(** The handle of [OpenURL] before anything ran on it; the cache directory
    exists and holds no database yet. *)
Definition empty : World :=
  mkWorld (newDB dbfile (3600 * time.Second) (60 * time.Second))
          {[ "/tmp" := Dir; "/tmp/freegeoip" := Dir ]}
          63000000000000000000 0 [].

(** The same with a database file in place. *)
Definition stocked : World :=
  mkWorld (newDB dbfile (3600 * time.Second) (60 * time.Second))
          {[ "/tmp" := Dir; "/tmp/freegeoip" := Dir;
             dbfile := File (bs "geodata") (at_ 200) ]}
          63000000000000000000 0 [].

(** The cache holds an empty database file. *)
Definition truncated : World :=
  mkWorld (newDB dbfile (3600 * time.Second) (60 * time.Second))
          {[ "/tmp" := Dir; "/tmp/freegeoip" := Dir; dbfile := File [] (at_ 200) ]}
          63000000000000000000 0 [].

(** A regular file sits where the cache directory should be. *)
Definition blocked : World :=
  mkWorld (newDB dbfile (3600 * time.Second) (60 * time.Second))
          {[ "/tmp" := Dir; "/tmp/freegeoip" := File (bs "x") (at_ 50) ]}
          63000000000000000000 0 [].

(** The peer answers [HEAD] without a length header. *)
Definition noLength : Env :=
  mkEnv (os_TempDir env) (gzip_NewReader env) (ioutil_ReadAll env)
        (maxminddb_reject env) (maxminddb_Lookup env)
        (fun url => Val "") (http_Get env)
        (fsnotify_NewWatcher env) (fsnotify_Watch env).

(** The body of the download breaks off after three bytes. *)
Definition broken : Env :=
  mkEnv (os_TempDir env) (gzip_NewReader env) (ioutil_ReadAll env)
        (maxminddb_reject env) (maxminddb_Lookup env)
        (http_Head env) (fun url => Val (mkBody (bs "hel") (Some "unexpected EOF")))
        (fsnotify_NewWatcher env) (fsnotify_Watch env).

Definition url : string := "http://example.org/db.gz".

(** The name [download] gives its temporary file at the clock of the
    sample worlds. *)
Definition tmpfile : string := "/tmp/_freegeoip.864403200000000000.db.gz".

Definition created : WatchSel := GotEvent (mkEvent dbfile true false).

(** The world a run ends in ([w] itself if it panics). *)
Definition after (steps : list Step) (w : World) : World :=
  match run env steps w with
  | Done (_, w') => w'
  | Panic _ => w
  end.

Definition modify : WatchSel := GotEvent (mkEvent dbfile false true).

(** The world [OpenURL] leaves when there is no local file, and the steps
    of a scheduler whose download fails and of a watcher that sees the
    file announced but not there. *)
Definition opened : World :=
  match OpenURL broken url (3600 * time.Second) (60 * time.Second) empty with
  | Done (_, w) => w
  | Panic _ => empty
  end.

Definition failing : list Step :=
  [Handle (OpUpdateCycle url (mkBackoff 0 false)); Handle (OpWatchPass created);
   Outside RecvError; Handle OpDate].

(** The database file was loaded. *)
Definition loaded : World := after [Handle OpOpenFile] stocked.

(** The handle was closed after the load. *)
Definition shut : World := after [Handle OpOpenFile; Handle OpClose] stocked.

(** A load came in after the handle was closed. *)
Definition late : World :=
  after [Handle OpOpenFile; Handle OpClose; Handle OpOpenFile] stocked.

(** After the load an older snapshot, with its older modification time, was
    moved over the database file. *)
Definition restored : World :=
  after [Handle OpOpenFile; Outside (WriteFile dbfile (bs "older") (at_ 100))] stocked.

End Sample.

(** ** Further notions

    The accessors of the notification channels and observations on a world
    that the statements about the remaining code use. *)

(** [NotifyClose], [NotifyOpen] and [NotifyError] return the channels of the
    handle. *)
Definition NotifyClose (d : DB) : chan.t unit := notifyQuit d.
Definition NotifyOpen (d : DB) : chan.t string := notifyOpen d.
Definition NotifyError (d : DB) : chan.t error := notifyError d.

(** The decoders on which [Close] was called, latest first. *)
Fixpoint closedReaders (l : list Effect) : list nat :=
  match l with
  | [] => []
  | ReaderClosed id :: rest => id :: closedReaders rest
  | _ :: rest => closedReaders rest
  end.

(** The pauses taken, latest first. *)
Fixpoint pauses (l : list Effect) : list time.Duration :=
  match l with
  | [] => []
  | Slept d :: rest => d :: pauses rest
  | _ :: rest => pauses rest
  end.

(** The [GET] requests made, latest first. *)
Fixpoint downloads (l : list Effect) : list string :=
  match l with
  | [] => []
  | GetRequest url :: rest => url :: downloads rest
  | _ :: rest => downloads rest
  end.

(** The name [download] gives its temporary file when started in [w]. *)
Definition tempName (env : Env) (w : World) : string :=
  filepath_Join [os_TempDir env;
                 "_freegeoip." +:+
                 sprintd (UnixNano {| time.instant := clock w; time.loc := Some "Local" |}) +:+
                 ".db.gz"].

(** The channels of a handle built for [f] are as [newDB] made them but for
    what they hold: capacities 0, 1 and 1, nothing in [notifyQuit], at most
    one value in the other two, and only [f] in [notifyOpen]. *)
Definition wired (f : string) (d : DB) : Prop :=
  file d = f /\
  chan.cap (notifyQuit d) = 0%nat /\ chan.buf (notifyQuit d) = [] /\
  chan.cap (notifyOpen d) = 1%nat /\ chan.cap (notifyError d) = 1%nat /\
  (length (chan.buf (notifyOpen d)) <= 1)%nat /\
  (length (chan.buf (notifyError d)) <= 1)%nat /\
  Forall (fun v => v = f) (chan.buf (notifyOpen d)).

(** No decoder was closed twice, every decoder closed or active was
    allocated, and the active decoder is not closed. *)
Definition tidy (w : World) : Prop :=
  NoDup (closedReaders (log w)) /\
  (forall id, id ∈ closedReaders (log w) -> (id < nextReader w)%nat) /\
  (forall rd, reader (db w) = Some rd ->
              (rid rd < nextReader w)%nat /\ rid rd ∉ closedReaders (log w)).

(** The handle is coherent, wired for [f] and configured with [u] and [m]. *)
Definition settled (f : string) (u m : time.Duration) (w : World) : Prop :=
  coherent w /\ wired f (db w) /\
  updateInterval (db w) = u /\ maxRetryInterval (db w) = m.

(** [m] runs to completion and leaves the handle, the allocation counter and
    the list of closed decoders as they were. *)
Definition spares {A} (m : M A) : Prop :=
  forall w, exists a w',
      m w = Done (a, w') /\ db w' = db w /\ nextReader w' = nextReader w /\
      closedReaders (log w') = closedReaders (log w).

(** The handle is coherent and its decoders are in order. *)
Definition kept (w : World) : Prop := coherent w /\ tidy w.

(** [m] runs to completion without a pause and leaves the handle as it
    was. *)
Definition unpaused {A} (m : M A) : Prop :=
  forall w, exists a w',
      m w = Done (a, w') /\ db w' = db w /\ pauses (log w') = pauses (log w).

(** More sample worlds. *)
Module Scene.

(** The database was loaded and then overwritten with an empty file. *)
Definition corrupted : World :=
  Sample.after [Handle OpOpenFile; Outside (WriteFile Sample.dbfile [] (Sample.at_ 300))]
               Sample.stocked.

(** The world after a reload was tried on it. *)
Definition retried : World :=
  match openFile Sample.env corrupted with
  | Done (_, w) => w
  | Panic _ => Sample.empty
  end.

(** The database was loaded and a failure reported; nothing was read from
    the channels. *)
Definition notified : World :=
  Sample.after [Handle OpOpenFile; Handle (OpSendError "first")] Sample.stocked.

(** The peer announces the length [n] in decimal. *)
Definition announcing (n : Z) : Env :=
  mkEnv (os_TempDir Sample.env) (gzip_NewReader Sample.env) (ioutil_ReadAll Sample.env)
        (maxminddb_reject Sample.env) (maxminddb_Lookup Sample.env)
        (fun url => Val (sprintd n)) (http_Get Sample.env)
        (fsnotify_NewWatcher Sample.env) (fsnotify_Watch Sample.env).

(** The peer cannot be reached. *)
Definition unreachable : Env :=
  mkEnv (os_TempDir Sample.env) (gzip_NewReader Sample.env) (ioutil_ReadAll Sample.env)
        (maxminddb_reject Sample.env) (maxminddb_Lookup Sample.env)
        (fun url => Fail "no route to host") (fun url => Fail "no route to host")
        (fsnotify_NewWatcher Sample.env) (fsnotify_Watch Sample.env).

(** A directory with a file in it sits at the database path. *)
Definition occupied : World :=
  mkWorld (newDB Sample.dbfile (3600 * time.Second) (60 * time.Second))
          {[ "/tmp" := Dir; "/tmp/freegeoip" := Dir; Sample.dbfile := Dir;
             "/tmp/freegeoip/db.gz/x" := File (Sample.bs "x") (Sample.at_ 50) ]}
          63000000000000000000 0 [].

(** A load has read the database file of [Sample.stocked]; before it looks
    at the file again, a download modified at instant 900 is moved into
    place. *)
Definition swapped : World :=
  match newReader Sample.env Sample.dbfile Sample.stocked with
  | Done (_, v1) =>
      Sample.after [Outside (WriteFile Sample.dbfile (Sample.bs "hello") (Sample.at_ 900))] v1
  | Panic _ => Sample.stocked
  end.

End Scene.

(** The number that the decimal digits [d] continue from the digits read so
    far, whose value is [acc]. *)
Fixpoint uintValue (d : Decimal.uint) (acc : Z) : Z :=
  match d with
  | Decimal.Nil => acc
  | Decimal.D0 l => uintValue l (10 * acc)
  | Decimal.D1 l => uintValue l (10 * acc + 1)
  | Decimal.D2 l => uintValue l (10 * acc + 2)
  | Decimal.D3 l => uintValue l (10 * acc + 3)
  | Decimal.D4 l => uintValue l (10 * acc + 4)
  | Decimal.D5 l => uintValue l (10 * acc + 5)
  | Decimal.D6 l => uintValue l (10 * acc + 6)
  | Decimal.D7 l => uintValue l (10 * acc + 7)
  | Decimal.D8 l => uintValue l (10 * acc + 8)
  | Decimal.D9 l => uintValue l (10 * acc + 9)
  end.

(** The world with another file system. *)
Definition withFS (f : gmap string Node) (w : World) : World :=
  mkWorld (db w) f (clock w) (nextReader w) (log w).


(** A file that may not be there: its content and modification time. *)
Definition fileNode (prev : option (bytes * time.Time)) : option Node :=
  match prev with
  | Some (data, mtime) => Some (File data mtime)
  | None => None
  end.

(** * Reasoning about computations *)

(** [m] runs to completion from every world and leaves the handle and the
    count of channel closes as they were. *)
Definition keeps {A} (m : M A) : Prop :=
  forall w, exists a w', m w = Done (a, w') /\ db w' = db w /\
                         forall c, closes c (log w') = closes c (log w).

(** [m] runs to completion from every world in [I] and ends in [I]. *)
Definition preserves (I : World -> Prop) {A} (m : M A) : Prop :=
  forall w, I w -> exists a w', m w = Done (a, w') /\ I w'.

(** [I] speaks of the handle and of the channel closes only. *)
Definition about_handle (I : World -> Prop) : Prop :=
  forall w w', db w' = db w -> (forall c, closes c (log w') = closes c (log w)) ->
               I w -> I w'.

Lemma closes_cons c e l :
  closes c (e :: l) = ((if decide (e = ChanClosed c) then 1 else 0) + closes c l)%nat.
Proof. unfold closes. rewrite filter_cons. destruct (decide _); reflexivity. Qed.

Lemma closes_other c e l : (forall c', e <> ChanClosed c') -> closes c (e :: l) = closes c l.
Proof.
  intros He. rewrite closes_cons. destruct (decide _) as [E|_]; [|reflexivity].
  destruct (He _ E).
Qed.

Lemma keeps_ret {A} (a : A) : keeps (ret a).
Proof. intros w. exists a, w. auto. Qed.

Lemma keeps_bind {A B} (m : M A) (k : A -> M B) :
  keeps m -> (forall a, keeps (k a)) -> keeps (bind m k).
Proof.
  intros Hm Hk w. destruct (Hm w) as (a & w1 & E1 & D1 & L1).
  destruct (Hk a w1) as (b & w2 & E2 & D2 & L2).
  exists b, w2. unfold bind. rewrite E1.
  split; [exact E2|]. split; [congruence|].
  intros c. rewrite L2. apply L1.
Qed.

Lemma keeps_getDB : keeps getDB.
Proof. intros w. exists (db w), w. auto. Qed.

Lemma keeps_getFS : keeps getFS.
Proof. intros w. exists (fs w), w. auto. Qed.

Lemma keeps_putFS f : keeps (putFS f).
Proof. intros w. eexists _, _. split; [reflexivity|]. auto. Qed.

Lemma keeps_time_Now : keeps time_Now.
Proof. intros w. eexists _, _. split; [reflexivity|]. auto. Qed.

Lemma keeps_pause d : keeps (pause d).
Proof.
  intros w. eexists _, _. split; [reflexivity|]. split; [reflexivity|].
  intros c. cbn [log]. apply closes_other. discriminate.
Qed.

Lemma keeps_newReaderObject b : keeps (newReaderObject b).
Proof. intros w. eexists _, _. split; [reflexivity|]. auto. Qed.

Lemma keeps_emit e : (forall c, e <> ChanClosed c) -> keeps (emit e).
Proof.
  intros He w. eexists _, _. split; [reflexivity|]. split; [reflexivity|].
  intros c. cbn [log]. apply closes_other, He.
Qed.

Lemma keeps_Reader_Close r : keeps (Reader_Close r).
Proof. apply keeps_emit. discriminate. Qed.

Create HintDb keeps.
#[export] Hint Resolve keeps_ret keeps_getDB keeps_getFS keeps_putFS keeps_time_Now
  keeps_pause keeps_newReaderObject keeps_Reader_Close : keeps.

(** One step through the structure of a computation. *)
Ltac keeps_step :=
  match goal with
  | |- keeps (bind _ _) => apply keeps_bind; [ | intros ? ]
  | |- keeps (emit _) => apply keeps_emit; discriminate
  | |- keeps (match ?x with _ => _ end) => destruct x
  | |- keeps _ => solve [ auto with keeps ]
  end.
Ltac keeps_tac := repeat keeps_step.

Lemma keeps_os_Stat p : keeps (os_Stat p).
Proof. unfold os_Stat. keeps_tac. Qed.

Lemma keeps_os_Open p : keeps (os_Open p).
Proof. unfold os_Open. keeps_tac. Qed.

Lemma keeps_os_MkdirAll p : keeps (os_MkdirAll p).
Proof. unfold os_MkdirAll. keeps_tac. Qed.

Lemma keeps_os_Create p : keeps (os_Create p).
Proof. unfold os_Create. keeps_tac. Qed.

Lemma keeps_io_Copy p body : keeps (io_Copy p body).
Proof. unfold io_Copy. keeps_tac. Qed.

Lemma keeps_os_Rename old new : keeps (os_Rename old new).
Proof. unfold os_Rename. keeps_tac. Qed.

Lemma keeps_os_RemoveAll p : keeps (os_RemoveAll p).
Proof. unfold os_RemoveAll. keeps_tac. Qed.

#[export] Hint Resolve keeps_os_Stat keeps_os_Open keeps_os_MkdirAll keeps_os_Create
  keeps_io_Copy keeps_os_Rename keeps_os_RemoveAll : keeps.

Section KeepsCode.

Variable env : Env.

Lemma keeps_newReader p : keeps (newReader env p).
Proof. unfold newReader. keeps_tac. Qed.

Lemma keeps_makeDir : keeps makeDir.
Proof. unfold makeDir. keeps_tac. Qed.

Hint Resolve keeps_makeDir : keeps.

Lemma keeps_watchFile : keeps (watchFile env).
Proof. unfold watchFile. keeps_tac. Qed.

Lemma keeps_needUpdate url : keeps (needUpdate env url).
Proof. unfold needUpdate. keeps_tac. Qed.

Lemma keeps_download url : keeps (download env url).
Proof. unfold download. keeps_tac. Qed.

Lemma keeps_renameFile name : keeps (renameFile name).
Proof. unfold renameFile. keeps_tac. Qed.

Hint Resolve keeps_needUpdate keeps_download keeps_renameFile : keeps.

Lemma keeps_runUpdate url : keeps (runUpdate env url).
Proof. unfold runUpdate. keeps_tac. Qed.

Lemma keeps_autoUpdateWait sel st : keeps (autoUpdateWait sel st).
Proof. unfold autoUpdateWait. keeps_tac. Qed.

Lemma keeps_Date : keeps Date.
Proof. unfold Date. keeps_tac. Qed.

Lemma keeps_Lookup addr : keeps (Lookup env addr).
Proof. unfold Lookup. keeps_tac. Qed.

End KeepsCode.

#[export] Hint Resolve keeps_newReader keeps_makeDir keeps_watchFile keeps_needUpdate
  keeps_download keeps_renameFile keeps_runUpdate keeps_autoUpdateWait keeps_Date
  keeps_Lookup : keeps.

(** * What the methods of the handle do *)

Lemma trySend_open {A} (v : A) (c : chan.t A) :
  chan.closed c = false ->
  exists c' sent, chan.trySend v c = Some (c', sent) /\ chan.closed c' = false /\
                  chan.cap c' = chan.cap c.
Proof.
  intros Hc. unfold chan.trySend. rewrite Hc.
  destruct (bool_decide _); eauto.
Qed.

Lemma setReader_closed rd t w :
  closed (db w) = true ->
  setReader rd t w =
    Done (tt, mkWorld (db w) (fs w) (clock w) (nextReader w)
                      (ReaderClosed (rid rd) :: log w)).
Proof. intros Hc. unfold setReader, bind, getDB. rewrite Hc. reflexivity. Qed.

Lemma setReader_open rd t w :
  closed (db w) = false -> chan.closed (notifyOpen (db w)) = false ->
  exists c sent,
    chan.trySend (file (db w)) (notifyOpen (db w)) = Some (c, sent) /\
    chan.closed c = false /\
    setReader rd t w =
      Done (tt, mkWorld
                  (mkDB (file (db w)) (Some rd) (notifyQuit (db w)) c
                        (notifyError (db w)) false (time.UTC t)
                        (updateInterval (db w)) (maxRetryInterval (db w)))
                  (fs w) (clock w) (nextReader w)
                  (match reader (db w) with
                   | Some old => ReaderClosed (rid old) :: log w
                   | None => log w
                   end)).
Proof.
  intros Hc Ho. destruct (trySend_open (file (db w)) _ Ho) as (c & sent & E & Hc' & _).
  exists c, sent. split; [exact E|]. split; [exact Hc'|].
  unfold setReader, bind, getDB. rewrite Hc.
  destruct (reader (db w)); cbn; rewrite E; cbn;
    unfold putDB, with_notifyOpen, with_lastUpdated, with_reader; cbn;
    rewrite Hc; reflexivity.
Qed.

Lemma sendError_closed err w :
  closed (db w) = true -> sendError err w = Done (tt, w).
Proof. intros Hc. unfold sendError, bind, getDB. rewrite Hc. reflexivity. Qed.

Lemma sendError_open err w :
  closed (db w) = false -> chan.closed (notifyError (db w)) = false ->
  exists c sent,
    chan.trySend err (notifyError (db w)) = Some (c, sent) /\
    chan.closed c = false /\
    sendError err w =
      Done (tt, mkWorld (with_notifyError c (db w)) (fs w) (clock w) (nextReader w)
                        (log w)).
Proof.
  intros Hc Ho. destruct (trySend_open err _ Ho) as (c & sent & E & Hc' & _).
  exists c, sent. split; [exact E|]. split; [exact Hc'|].
  unfold sendError, bind, getDB. rewrite Hc, E. reflexivity.
Qed.

(** [Close] on a closed handle: only the decoder, if any, is released. *)
Lemma Close_closed w :
  closed (db w) = true ->
  Close w =
    Done (tt, match reader (db w) with
              | Some rd => mkWorld (with_reader None (db w)) (fs w) (clock w)
                                   (nextReader w) (ReaderClosed (rid rd) :: log w)
              | None => w
              end).
Proof.
  intros Hc. unfold Close, bind, getDB. rewrite Hc. cbn.
  destruct (reader (db w)); reflexivity.
Qed.

(** [Close] on an open handle whose channels are open. *)
Lemma Close_open w :
  closed (db w) = false ->
  chan.closed (notifyQuit (db w)) = false ->
  chan.closed (notifyOpen (db w)) = false ->
  chan.closed (notifyError (db w)) = false ->
  Close w =
    Done (tt, mkWorld
                (mkDB (file (db w)) None
                      (chan.mk (chan.buf (notifyQuit (db w))) (chan.cap (notifyQuit (db w))) true)
                      (chan.mk (chan.buf (notifyOpen (db w))) (chan.cap (notifyOpen (db w))) true)
                      (chan.mk (chan.buf (notifyError (db w))) (chan.cap (notifyError (db w))) true)
                      true (lastUpdated (db w))
                      (updateInterval (db w)) (maxRetryInterval (db w)))
                (fs w) (clock w) (nextReader w)
                (match reader (db w) with
                 | Some rd => [ReaderClosed (rid rd)]
                 | None => []
                 end ++
                 ChanClosed ErrorC :: ChanClosed OpenC :: ChanClosed QuitC :: log w)).
Proof.
  intros Hc Hq Ho He.
  destruct w as [[fi rd [bq cq xq] [bo co xo] [be ce xe] cl lu ui mr] f ck nr lg].
  cbn in *. subst. destruct rd; reflexivity.
Qed.

(** * Invariants of executions *)

Section Preservation.

Variable env : Env.
Variable I : World -> Prop.

Lemma preserves_ret {A} (a : A) : preserves I (ret a).
Proof. intros w Hw. exists a, w. auto. Qed.

Lemma preserves_bind {A B} (m : M A) (k : A -> M B) :
  preserves I m -> (forall a, preserves I (k a)) -> preserves I (bind m k).
Proof.
  intros Hm Hk w Hw. destruct (Hm w Hw) as (a & w1 & E1 & I1).
  destruct (Hk a w1 I1) as (b & w2 & E2 & I2).
  exists b, w2. unfold bind. rewrite E1. auto.
Qed.

Hypothesis I_handle : about_handle I.

Lemma preserves_keeps {A} (m : M A) : keeps m -> preserves I m.
Proof.
  intros Hm w Hw. destruct (Hm w) as (a & w' & E & D & L).
  exists a, w'. split; [exact E|]. exact (I_handle w w' D L Hw).
Qed.

Ltac pres_step :=
  match goal with
  | |- preserves _ (bind _ _) => apply preserves_bind; [ | intros ? ]
  | |- preserves _ (match ?x with _ => _ end) => destruct x
  | H : _ |- preserves _ _ => solve [ apply H ]
  | |- preserves _ _ => solve [ apply preserves_keeps; auto with keeps ]
  end.
Ltac pres_tac := repeat pres_step.

Hypothesis I_setReader : forall rd t, preserves I (setReader rd t).

Lemma preserves_openFile : preserves I (openFile env).
Proof. unfold openFile. pres_tac. Qed.

Lemma preserves_watchEventsPass sel : preserves I (watchEventsPass env sel).
Proof.
  pose proof preserves_openFile. unfold watchEventsPass.
  destruct sel; pres_tac; apply preserves_keeps; apply keeps_emit; discriminate.
Qed.

Lemma preserves_watchEvents sels : preserves I (watchEvents env sels).
Proof.
  pose proof preserves_watchEventsPass.
  induction sels as [|sel rest IH]; cbn [watchEvents]; pres_tac.
Qed.

Hypothesis I_sendError : forall err, preserves I (sendError err).

Lemma preserves_autoUpdateCycle url st : preserves I (autoUpdateCycle env url st).
Proof. unfold autoUpdateCycle. pres_tac. Qed.

Lemma preserves_autoUpdateFrom url sels st :
  preserves I (autoUpdateFrom env url sels st).
Proof.
  pose proof preserves_autoUpdateCycle.
  revert st. induction sels as [|sel rest IH]; intros st; cbn [autoUpdateFrom];
    pres_tac.
Qed.

(** Every step of the handle except [Close]. *)
Lemma preserves_background op : op <> OpClose -> preserves I (perform env op).
Proof.
  pose proof preserves_openFile. pose proof preserves_watchEventsPass.
  pose proof preserves_autoUpdateCycle.
  intros Hop. destruct op; cbn [perform]; try congruence; pres_tac.
Qed.

Hypothesis I_Close : preserves I Close.

Lemma preserves_perform op : preserves I (perform env op).
Proof.
  destruct op; try exact I_Close; apply preserves_background; discriminate.
Qed.

(** Executions of the handle alone. *)
Lemma preserves_ops ops : preserves I (run env (map Handle ops)).
Proof.
  pose proof preserves_perform.
  induction ops as [|op rest IH]; cbn [run map step]; pres_tac.
Qed.

Hypothesis I_outside : forall e, preserves I (outside e).

Lemma preserves_step s : preserves I (step env s).
Proof. destruct s; cbn [step]; [apply preserves_perform | apply I_outside]. Qed.

Lemma preserves_run steps : preserves I (run env steps).
Proof.
  pose proof preserves_step.
  induction steps as [|s rest IH]; cbn [run]; pres_tac.
Qed.

End Preservation.

(** ** The methods on a coherent handle *)

Arguments closes : simpl never.

Lemma fresh_coherent w : fresh w -> coherent w /\ closedOnce w.
Proof.
  intros [(dsn & u & m & E) Hl]. unfold coherent, closedOnce. rewrite E. cbn.
  repeat split; auto; discriminate.
Qed.

Lemma setReader_post rd t w :
  coherent w ->
  exists w',
    setReader rd t w = Done (tt, w') /\ coherent w' /\
    closed (db w') = closed (db w) /\
    file (db w') = file (db w) /\
    notifyQuit (db w') = notifyQuit (db w) /\
    notifyError (db w') = notifyError (db w) /\
    fs w' = fs w /\ clock w' = clock w /\ nextReader w' = nextReader w /\
    (forall c, closes c (log w') = closes c (log w)) /\
    (closed (db w) = true ->
     db w' = db w /\ log w' = ReaderClosed (rid rd) :: log w) /\
    (closed (db w) = false ->
     reader (db w') = Some rd /\ lastUpdated (db w') = time.UTC t).
Proof.
  intros (Hq & Ho & He & Hr). destruct (closed (db w)) eqn:Hc.
  - rewrite (setReader_closed rd t w Hc). eexists. split; [reflexivity|]. cbn.
    unfold coherent. cbn. rewrite Hc.
    repeat split; auto; try discriminate.
  - destruct (setReader_open rd t w Hc Ho) as (c & sent & E & Hc' & Eq).
    rewrite Eq. eexists. split; [reflexivity|]. cbn. unfold coherent. cbn.
    repeat split; auto; try discriminate.
    intros c'. destruct (reader (db w)); reflexivity.
Qed.

Lemma sendError_post err w :
  coherent w ->
  exists w',
    sendError err w = Done (tt, w') /\ coherent w' /\
    closed (db w') = closed (db w) /\
    reader (db w') = reader (db w) /\
    lastUpdated (db w') = lastUpdated (db w) /\
    log w' = log w /\
    (closed (db w) = true -> w' = w) /\
    updateInterval (db w') = updateInterval (db w) /\
    maxRetryInterval (db w') = maxRetryInterval (db w).
Proof.
  intros (Hq & Ho & He & Hr). destruct (closed (db w)) eqn:Hc.
  - rewrite (sendError_closed err w Hc). eexists. split; [reflexivity|].
    unfold coherent. rewrite Hc. repeat split; auto.
  - destruct (sendError_open err w Hc He) as (c & sent & E & Hc' & Eq).
    rewrite Eq. eexists. split; [reflexivity|]. unfold coherent. cbn. rewrite Hc.
    repeat split; auto; discriminate.
Qed.

Lemma Close_post w :
  coherent w ->
  exists w',
    Close w = Done (tt, w') /\ coherent w' /\
    closed (db w') = true /\
    reader (db w') = None /\
    lastUpdated (db w') = lastUpdated (db w) /\
    (closed (db w) = true -> w' = w) /\
    (forall c, closes c (log w') =
               if closed (db w) then closes c (log w) else S (closes c (log w))).
Proof.
  intros (Hq & Ho & He & Hr). destruct (closed (db w)) eqn:Hc.
  - rewrite (Close_closed w Hc), (Hr eq_refl). exists w. unfold coherent.
    rewrite Hc. repeat split; auto.
  - rewrite (Close_open w Hc Hq Ho He). eexists. split; [reflexivity|].
    unfold coherent. cbn. repeat split; auto; try discriminate.
    intros c. destruct (reader (db w)); cbn [app];
      rewrite ?(closes_other c (ReaderClosed _)) by discriminate;
      rewrite !closes_cons; destruct c; reflexivity.
Qed.

Lemma outside_post e w :
  coherent w ->
  exists w',
    outside e w = Done (tt, w') /\ coherent w' /\
    closed (db w') = closed (db w) /\
    reader (db w') = reader (db w) /\
    lastUpdated (db w') = lastUpdated (db w) /\
    log w' = log w.
Proof.
  intros (Hq & Ho & He & Hr).
  destruct w as [[fi rd nq [bo co xo] [be ce xe] cl lu ui mr] f ck nr lg].
  unfold coherent in *. cbn in *.
  destruct e; cbn; unfold bind, getDB, getFS, chan.recv; cbn.
  - destruct bo, xo; cbn; eexists; (split; [reflexivity|]); cbn; repeat split; auto.
  - destruct be, xe; cbn; eexists; (split; [reflexivity|]); cbn; repeat split; auto.
  - eexists. split; [reflexivity|]. cbn. repeat split; auto.
  - eexists. split; [reflexivity|]. cbn. repeat split; auto.
  - eexists. split; [reflexivity|]. cbn. repeat split; auto.
Qed.

(** ** Invariants of every execution *)

Lemma about_handle_coherent : about_handle coherent.
Proof. intros w w' D _. unfold coherent. rewrite D. auto. Qed.

Lemma about_handle_counted : about_handle (fun w => coherent w /\ closedOnce w).
Proof.
  intros w w' D L [H1 H2]. split; [exact (about_handle_coherent w w' D L H1)|].
  intros c. rewrite L, D. apply H2.
Qed.

(** Coherence holds, and the closes are counted right, along every
    execution. *)
Lemma counted_run env steps :
  preserves (fun w => coherent w /\ closedOnce w) (run env steps).
Proof.
  apply preserves_run.
  - exact about_handle_counted.
  - intros rd t w [H1 H2]. destruct (setReader_post rd t w H1) as (w' & E & C & Hc & _ & _ & _ & _ & _ & _ & L & _).
    exists tt, w'. split; [exact E|]. split; [exact C|]. intros c. rewrite L, Hc. apply H2.
  - intros err w [H1 H2]. destruct (sendError_post err w H1) as (w' & E & C & Hc & _ & _ & L & _).
    exists tt, w'. split; [exact E|]. split; [exact C|]. intros c. rewrite L, Hc. apply H2.
  - intros w [H1 H2]. destruct (Close_post w H1) as (w' & E & C & Hc & _ & _ & _ & L).
    exists tt, w'. split; [exact E|]. split; [exact C|]. intros c. rewrite L, Hc, H2.
    destruct (closed (db w)); reflexivity.
  - intros e w [H1 H2]. destruct (outside_post e w H1) as (w' & E & C & Hc & _ & _ & L).
    exists tt, w'. split; [exact E|]. split; [exact C|]. intros c. rewrite L, Hc. apply H2.
Qed.

(** Once closed, closed for good. *)
Lemma closed_run env steps :
  preserves (fun w => (coherent w /\ closedOnce w) /\ closed (db w) = true)
            (run env steps).
Proof.
  apply preserves_run.
  - intros w w' D L [H1 H2]. split; [exact (about_handle_counted w w' D L H1)|].
    rewrite D. exact H2.
  - intros rd t w [[H1 H2] H3]. destruct (setReader_post rd t w H1) as (w' & E & C & Hc & _ & _ & _ & _ & _ & _ & L & _).
    exists tt, w'. split; [exact E|]. split; [|congruence]. split; [exact C|].
    intros c. rewrite L, Hc. apply H2.
  - intros err w [[H1 H2] H3]. destruct (sendError_post err w H1) as (w' & E & C & Hc & _ & _ & L & _).
    exists tt, w'. split; [exact E|]. split; [|congruence]. split; [exact C|].
    intros c. rewrite L, Hc. apply H2.
  - intros w [[H1 H2] H3]. destruct (Close_post w H1) as (w' & E & C & Hc & _ & _ & _ & L).
    exists tt, w'. split; [exact E|]. split; [|exact Hc]. split; [exact C|].
    intros c. rewrite L, Hc, H2.
    destruct (closed (db w)); reflexivity.
  - intros e w [[H1 H2] H3]. destruct (outside_post e w H1) as (w' & E & C & Hc & _ & _ & L).
    exists tt, w'. split; [exact E|]. split; [|congruence]. split; [exact C|].
    intros c. rewrite L, Hc. apply H2.
Qed.

Lemma run_app env (a b : list Step) w :
  run env (a ++ b) w = (run env a ;;; run env b) w.
Proof.
  revert w. induction a as [|s a IH]; intros w; cbn [run app].
  - reflexivity.
  - unfold bind in *. destruct (step env s w) as [[[] w1]|msg]; [|reflexivity].
    apply IH.
Qed.

(** An execution in which [Close] is called: where it stands before the
    call, after it and at its end. *)
Lemma run_through_Close env before after w0 :
  fresh w0 ->
  exists w1 w2 w,
    run env before w0 = Done (tt, w1) /\
    Close w1 = Done (tt, w2) /\
    run env after w2 = Done (tt, w) /\
    run env (before ++ Handle OpClose :: after) w0 = Done (tt, w) /\
    coherent w /\ closedOnce w /\ closed (db w) = true.
Proof.
  intros Hf. apply fresh_coherent in Hf.
  destruct (counted_run env before w0 Hf) as ([] & w1 & E1 & C1 & L1).
  destruct (Close_post w1 C1) as (w2 & E2 & C2 & Hc2 & _ & _ & _ & L2).
  assert (closedOnce w2) as O2.
  { intros c. rewrite L2, Hc2, L1. destruct (closed (db w1)); reflexivity. }
  destruct (closed_run env after w2 (conj (conj C2 O2) Hc2)) as ([] & w & E3 & [C3 L3] & Hc3).
  exists w1, w2, w. split; [exact E1|]. split; [exact E2|]. split; [exact E3|].
  split; [|auto].
  rewrite run_app. unfold bind. rewrite E1. cbn [run step perform]. unfold bind.
  rewrite E2. exact E3.
Qed.

(** * The handle after [Close] *)

Lemma reached_coherent env steps w0 w :
  fresh w0 -> run env steps w0 = Done (tt, w) -> coherent w /\ closedOnce w.
Proof.
  intros Hf E. destruct (counted_run env steps w0 (fresh_coherent w0 Hf)) as (a & w' & E' & H).
  assert (w' = w) as -> by congruence. exact H.
Qed.

(** C1. After [Close] has set the closed flag, [setReader] closes the decoder
    it was given and installs nothing: the handle (active instance,
    timestamp, the three channels, the flag) is as before and the only effect
    is the [ReaderClosed] of the new decoder. [sendError] changes nothing at
    all. No sequence of operations of the handle changes the handle again, so
    the flag stays set. *)
Theorem closed_handle_is_frozen env w0 steps w :
  fresh w0 -> run env steps w0 = Done (tt, w) -> closed (db w) = true ->
  (forall rd t,
      setReader rd t w =
        Done (tt, mkWorld (db w) (fs w) (clock w) (nextReader w)
                          (ReaderClosed (rid rd) :: log w))) /\
  (forall err, sendError err w = Done (tt, w)) /\
  (forall ops, exists w', run env (map Handle ops) w = Done (tt, w') /\ db w' = db w).
Proof.
  intros Hf E Hc. destruct (reached_coherent env steps w0 w Hf E) as [(_ & _ & _ & Hr) _].
  specialize (Hr Hc).
  split; [intros; apply setReader_closed, Hc|].
  split; [intros; apply sendError_closed, Hc|].
  intros ops.
  assert (preserves (fun w' => db w' = db w) (run env (map Handle ops))) as P.
  { apply preserves_ops.
    - intros w1 w2 D _ H. congruence.
    - intros rd t w1 H. rewrite setReader_closed by congruence. eauto.
    - intros err w1 H. rewrite sendError_closed by congruence. eauto.
    - intros w1 H. rewrite Close_closed by congruence. rewrite H, Hr. eauto. }
  destruct (P w eq_refl) as ([] & w' & E' & D). eauto.
Qed.

(** C5. [Lookup] returns what the decoder's lookup returns when there is an
    active instance and [ErrUnavailable] when there is none; at every point
    of an execution after a call of [Close] it returns [ErrUnavailable]. *)
Theorem Lookup_delegates_or_unavailable env w0 before after w addr :
  fresh w0 -> run env (before ++ Handle OpClose :: after) w0 = Done (tt, w) ->
  (forall w' addr',
      Lookup env addr' w' =
        Done (match reader (db w') with
              | Some rd => maxminddb_Lookup env (rbuf rd) addr'
              | None => (None, Some ErrUnavailable)
              end, w')) /\
  Lookup env addr w = Done ((None, Some ErrUnavailable), w).
Proof.
  intros Hf E.
  assert (forall w' addr',
             Lookup env addr' w' =
               Done (match reader (db w') with
                     | Some rd => maxminddb_Lookup env (rbuf rd) addr'
                     | None => (None, Some ErrUnavailable)
                     end, w')) as HL.
  { intros w' addr'. unfold Lookup, bind, getDB. destruct (reader (db w')); reflexivity. }
  split; [exact HL|].
  destruct (run_through_Close env before after w0 Hf)
    as (w1 & w2 & w' & _ & _ & _ & E' & (_ & _ & _ & Hr) & _ & Hc).
  assert (w' = w) as -> by congruence.
  rewrite HL, (Hr Hc). reflexivity.
Qed.

(** C8. [Close] may be called again at any later point of an execution: the
    later call returns normally, closes no channel and changes nothing (the
    decoder was released by the first call), the execution never panics, and
    at its end each of the three channels has been closed exactly once. *)
Theorem Close_twice env w0 before between after :
  fresh w0 ->
  exists w1 w,
    run env (before ++ Handle OpClose :: between) w0 = Done (tt, w1) /\
    Close w1 = Done (tt, w1) /\
    run env (before ++ Handle OpClose :: between ++ Handle OpClose :: after) w0
      = Done (tt, w) /\
    (forall c, closes c (log w1) = 1%nat) /\
    (forall c, closes c (log w) = 1%nat).
Proof.
  intros Hf.
  destruct (run_through_Close env before between w0 Hf)
    as (_ & _ & w1 & _ & _ & _ & E1 & C1 & O1 & Hc1).
  destruct (run_through_Close env before (between ++ Handle OpClose :: after) w0 Hf)
    as (_ & _ & w & _ & _ & _ & E & C & O & Hc).
  destruct (Close_post w1 C1) as (w1' & E1' & _ & _ & _ & _ & Same & _).
  rewrite (Same Hc1) in E1'.
  exists w1, w. split; [exact E1|]. split; [exact E1'|]. split; [exact E|].
  split; intros c; [rewrite O1, Hc1 | rewrite O, Hc]; reflexivity.
Qed.

Lemma fresh_stocked : fresh Sample.stocked.
Proof.
  split; [exists Sample.dbfile, (3600 * time.Second), (60 * time.Second); reflexivity|].
  intros c; destruct c; reflexivity.
Qed.

Lemma closed_handle_is_frozen_witness :
  fresh Sample.stocked /\
  run Sample.env [Handle OpOpenFile; Handle OpClose] Sample.stocked
    = Done (tt, Sample.shut) /\
  closed (db Sample.shut) = true /\
  setReader (mkReader 7 (Sample.bs "newer")) (Sample.at_ 300) Sample.shut =
    Done (tt, mkWorld (db Sample.shut) (fs Sample.shut) (clock Sample.shut)
                      (nextReader Sample.shut) (ReaderClosed 7 :: log Sample.shut)) /\
  sendError "Database update failed: timeout" Sample.shut = Done (tt, Sample.shut) /\
  exists w',
    run Sample.env (map Handle [OpOpenFile; OpWatchPass Sample.modify; OpClose]) Sample.shut
      = Done (tt, w') /\
    db w' = db Sample.shut.
Proof.
  assert (fresh Sample.stocked) as Hf by exact fresh_stocked.
  assert (run Sample.env [Handle OpOpenFile; Handle OpClose] Sample.stocked
          = Done (tt, Sample.shut)) as E by (vm_compute; reflexivity).
  assert (closed (db Sample.shut) = true) as Hc by (vm_compute; reflexivity).
  destruct (closed_handle_is_frozen Sample.env Sample.stocked _ Sample.shut Hf E Hc)
    as (H1 & H2 & H3).
  split; [exact Hf|]. split; [exact E|]. split; [exact Hc|].
  split; [exact (H1 (mkReader 7 (Sample.bs "newer")) (Sample.at_ 300))|].
  split; [exact (H2 _)|]. exact (H3 _).
Defined.

Lemma Lookup_delegates_or_unavailable_witness :
  fresh Sample.stocked /\
  run Sample.env ([Handle OpOpenFile] ++ Handle OpClose :: [Handle OpOpenFile]) Sample.stocked
    = Done (tt, Sample.late) /\
  Lookup Sample.env (Sample.bs "addr") Sample.late
    = Done ((None, Some ErrUnavailable), Sample.late).
Proof.
  assert (fresh Sample.stocked) as Hf by exact fresh_stocked.
  assert (run Sample.env ([Handle OpOpenFile] ++ Handle OpClose :: [Handle OpOpenFile])
              Sample.stocked = Done (tt, Sample.late)) as E by (vm_compute; reflexivity).
  split; [exact Hf|]. split; [exact E|].
  exact (proj2 (Lookup_delegates_or_unavailable Sample.env Sample.stocked _ _ Sample.late
                  (Sample.bs "addr") Hf E)).
Defined.

Lemma Close_twice_witness :
  fresh Sample.stocked /\
  exists w1 w,
    run Sample.env ([Handle OpOpenFile] ++ Handle OpClose :: [Handle (OpSendError "late")])
        Sample.stocked = Done (tt, w1) /\
    Close w1 = Done (tt, w1) /\
    run Sample.env ([Handle OpOpenFile] ++ Handle OpClose ::
                    [Handle (OpSendError "late")] ++ Handle OpClose :: [Handle OpOpenFile])
        Sample.stocked = Done (tt, w) /\
    (forall c, closes c (log w1) = 1%nat) /\
    (forall c, closes c (log w) = 1%nat).
Proof.
  split; [exact fresh_stocked|].
  exact (Close_twice Sample.env Sample.stocked [Handle OpOpenFile]
                     [Handle (OpSendError "late")] [Handle OpOpenFile] fresh_stocked).
Defined.

(** * The last-updated timestamp *)

(** What a successful [openFile] found in the file system. *)
Lemma openFile_success env w w' :
  coherent w -> closed (db w) = false ->
  openFile env w = Done (None, w') ->
  exists data mtime gz b,
    fs w !! file (db w) = Some (File data mtime) /\
    gzip_NewReader env data = Val gz /\ ioutil_ReadAll env gz = Val b /\
    maxminddb_reject env b = None /\
    reader (db w') = Some (mkReader (nextReader w) b) /\
    lastUpdated (db w') = time.UTC mtime /\
    fs w' = fs w /\ nextReader w' = S (nextReader w) /\ coherent w' /\
    closed (db w') = false /\ file (db w') = file (db w).
Proof.
  intros C Hc. unfold openFile, bind, getDB, newReader, bind, os_Open, os_Stat, bind, getFS.
  unfold node. destruct (bool_decide _); [discriminate|].
  destruct (fs w !! file (db w)) as [[data mtime|]|] eqn:N; cbn -[setReader];
    try discriminate.
  destruct (gzip_NewReader env data) as [gz|] eqn:G; cbn -[setReader]; try discriminate.
  destruct (ioutil_ReadAll env gz) as [b|] eqn:R; cbn -[setReader]; try discriminate.
  destruct (maxminddb_reject env b) eqn:J; cbn -[setReader]; try discriminate.
  rewrite N. cbn -[setReader].
  set (w1 := mkWorld (db w) (fs w) (clock w) (S (nextReader w)) (log w)).
  destruct (setReader_post (mkReader (nextReader w) b) mtime w1 C)
    as (w2 & E & C2 & Hc2 & Hf & _ & _ & F2 & _ & N2 & _ & _ & Hopen).
  fold w1. rewrite E. cbn. intros [= <-].
  destruct (Hopen Hc) as [Hr Hl].
  exists data, mtime, gz, b. unfold w1 in *. cbn in *.
  do 8 (split; [solve [auto]|]). split; [exact C2|]. split; congruence.
Qed.

(** What [newReader] read when it returned a decoder. *)
Lemma newReader_success env p v rd v1 :
  newReader env p v = Done (Val rd, v1) ->
  exists data mtime gz,
    node (fs v) p = Some (File data mtime) /\
    gzip_NewReader env data = Val gz /\ ioutil_ReadAll env gz = Val (rbuf rd) /\
    maxminddb_reject env (rbuf rd) = None /\
    rid rd = nextReader v /\
    v1 = mkWorld (db v) (fs v) (clock v) (S (nextReader v)) (log v).
Proof.
  unfold newReader, bind, os_Open, bind, getFS.
  destruct (node (fs v) p) as [[data mtime|]|]; cbn; try discriminate.
  destruct (gzip_NewReader env data) as [gz|] eqn:G; cbn; try discriminate.
  destruct (ioutil_ReadAll env gz) as [b|] eqn:R; cbn; try discriminate.
  destruct (maxminddb_reject env b) eqn:J; cbn; try discriminate.
  unfold newReaderObject, ret. intros E.
  assert (rd = mkReader (nextReader v) b) as -> by congruence.
  assert (v1 = mkWorld (db v) (fs v) (clock v) (S (nextReader v)) (log v)) as ->
    by congruence.
  exists data, mtime, gz. cbn. auto 10.
Qed.

(** [openFile] is [newReader] followed by [openFileStat] when nothing runs
    between the two. *)
Lemma openFile_split env w :
  openFile env w =
  (r <~ newReader env (file (db w)) ;;
   match r with
   | Fail err => ret (Some err)
   | Val rd => openFileStat rd
   end) w.
Proof.
  unfold openFile, openFileStat, bind, getDB.
  destruct (newReader env (file (db w)) w) as [[[rd|e] v1]|m] eqn:E; try reflexivity.
  destruct (newReader_success env _ w rd v1 E) as (_ & _ & _ & _ & _ & _ & _ & _ & ->).
  reflexivity.
Qed.

(** What [openFileStat] does when it returns no error: the install step
    with the modification time that [os.Stat] reports now. *)
Lemma openFileStat_success rd w w' :
  openFileStat rd w = Done (None, w') ->
  exists stat,
    os_Stat (file (db w)) w = Done (Val stat, w) /\
    setReader rd (ModTime stat) w = Done (tt, w').
Proof.
  unfold openFileStat, bind, getDB.
  assert (exists st, os_Stat (file (db w)) w = Done (st, w)) as [st E].
  { unfold os_Stat, bind, getFS. destruct (node _ _) as [[? ?|]|]; eauto. }
  rewrite E. destruct st as [stat|e]; [|discriminate].
  destruct (setReader rd (ModTime stat) w) as [[[] w2]|m] eqn:S; [|discriminate].
  unfold ret. intros H. assert (w2 = w') as -> by congruence. eauto.
Qed.

(** C2 (as the code has it). A successful install sets the timestamp to the
    modification time it was given, in UTC, whatever the timestamp was
    before: [Date] then moves forward exactly when that time is not older
    than the previous timestamp. In [openFile] that time is the one that
    [os.Stat] reports for the database path when the install is made, in the
    world [w], while the decoder was read from the file that was at the path
    earlier, in the world [v]: the timestamp is the modification time of the
    file that produced the active instance when the path holds the same file
    at both moments, and the modification time of the replacing file
    otherwise. *)
Theorem install_sets_Date env w :
  coherent w -> closed (db w) = false ->
  (forall rd t,
      exists w',
        setReader rd t w = Done (tt, w') /\
        reader (db w') = Some rd /\
        Date w' = Done (time.UTC t, w') /\
        (time.instant (lastUpdated (db w)) <= time.instant (lastUpdated (db w')) <->
         time.instant (lastUpdated (db w)) <= time.instant t)) /\
  (forall v rd v1 w',
      newReader env (file (db w)) v = Done (Val rd, v1) ->
      openFileStat rd w = Done (None, w') ->
      exists data mtime gz stat,
        node (fs v) (file (db w)) = Some (File data mtime) /\
        gzip_NewReader env data = Val gz /\ ioutil_ReadAll env gz = Val (rbuf rd) /\
        os_Stat (file (db w)) w = Done (Val stat, w) /\
        reader (db w') = Some rd /\
        Date w' = Done (time.UTC (ModTime stat), w') /\
        (node (fs w) (file (db w)) = node (fs v) (file (db w)) -> ModTime stat = mtime)).
Proof.
  intros C Hc. split.
  - intros rd t.
    destruct (setReader_post rd t w C) as (w' & E & _ & _ & _ & _ & _ & _ & _ & _ & _ & _ & Hopen).
    destruct (Hopen Hc) as [Hr Hl].
    exists w'. split; [exact E|]. split; [exact Hr|].
    unfold Date, bind, getDB, ret. rewrite Hl. split; [reflexivity|]. reflexivity.
  - intros v rd v1 w' Er Es.
    destruct (newReader_success env _ v rd v1 Er) as (data & mtime & gz & N & G & R & _).
    destruct (openFileStat_success rd w w' Es) as (stat & St & Se).
    destruct (setReader_post rd (ModTime stat) w C)
      as (w2 & E & _ & _ & _ & _ & _ & _ & _ & _ & _ & _ & Hopen).
    assert (w2 = w') as -> by congruence.
    destruct (Hopen Hc) as [Hr Hl].
    exists data, mtime, gz, stat.
    split; [exact N|]. split; [exact G|]. split; [exact R|]. split; [exact St|].
    split; [exact Hr|]. split.
    + unfold Date, bind, getDB, ret. rewrite Hl. reflexivity.
    + intros Same. unfold os_Stat, bind, getFS in St. rewrite Same, N in St.
      unfold ret in St. assert (Val stat = Val (mkInfo (blen data) mtime false)) as K
        by congruence.
      injection K as ->. reflexivity.
Qed.

Lemma coherent_loaded : coherent Sample.loaded.
Proof. vm_compute. repeat split; auto; discriminate. Qed.

Lemma coherent_swapped : coherent Scene.swapped.
Proof. vm_compute. repeat split; auto; discriminate. Qed.

Lemma install_sets_Date_witness :
  (coherent Sample.loaded /\ closed (db Sample.loaded) = false /\
   exists w',
     setReader (mkReader 1 (Sample.bs "older")) (Sample.at_ 100) Sample.loaded
       = Done (tt, w') /\
     reader (db w') = Some (mkReader 1 (Sample.bs "older")) /\
     Date w' = Done (time.UTC (Sample.at_ 100), w') /\
     (time.instant (lastUpdated (db Sample.loaded)) <= time.instant (lastUpdated (db w')) <->
      time.instant (lastUpdated (db Sample.loaded)) <= time.instant (Sample.at_ 100))) /\
  (coherent Scene.swapped /\ closed (db Scene.swapped) = false /\
   exists rd v1 w' stat,
     newReader Sample.env Sample.dbfile Sample.stocked = Done (Val rd, v1) /\
     openFileStat rd Scene.swapped = Done (None, w') /\
     node (fs Sample.stocked) Sample.dbfile
       = Some (File (Sample.bs "geodata") (Sample.at_ 200)) /\
     ioutil_ReadAll Sample.env (Sample.bs "geodata") = Val (rbuf rd) /\
     os_Stat Sample.dbfile Scene.swapped = Done (Val stat, Scene.swapped) /\
     ModTime stat = Sample.at_ 900 /\
     reader (db w') = Some rd /\
     Date w' = Done (time.UTC (ModTime stat), w')).
Proof.
  split.
  - split; [exact coherent_loaded|]. split; [reflexivity|].
    exact (proj1 (install_sets_Date Sample.env Sample.loaded coherent_loaded eq_refl)
                 (mkReader 1 (Sample.bs "older")) (Sample.at_ 100)).
  - split; [exact coherent_swapped|]. split; [reflexivity|].
    assert (exists v1, newReader Sample.env Sample.dbfile Sample.stocked
                       = Done (Val (mkReader 0 (Sample.bs "geodata")), v1)) as [v1 Er]
      by (eexists; vm_compute; reflexivity).
    assert (exists w', openFileStat (mkReader 0 (Sample.bs "geodata")) Scene.swapped
                       = Done (None, w')) as [w' Es]
      by (eexists; vm_compute; reflexivity).
    destruct (proj2 (install_sets_Date Sample.env Scene.swapped coherent_swapped eq_refl)
                    Sample.stocked (mkReader 0 (Sample.bs "geodata")) v1 w' Er Es)
      as (data & mtime & gz & stat & N & G & R & St & Hr & Hd & _).
    exists (mkReader 0 (Sample.bs "geodata")), v1, w', stat.
    split; [exact Er|]. split; [exact Es|].
    split; [vm_compute; reflexivity|]. split; [vm_compute; reflexivity|].
    split; [exact St|]. split; [|split; [exact Hr|exact Hd]].
    assert (os_Stat Sample.dbfile Scene.swapped
            = Done (Val (mkInfo 5 (Sample.at_ 900) false), Scene.swapped)) as K
      by (vm_compute; reflexivity).
    change (file (db Scene.swapped)) with Sample.dbfile in St.
    rewrite K in St. assert (stat = mkInfo 5 (Sample.at_ 900) false) as -> by congruence.
    reflexivity.
Defined.

(** The file is replaced between the two calls of [openFile]: the decoder
    was read from the file modified at instant 200, a download modified at
    instant 900 is moved into place, and the install gives the handle the
    decoder of the first file with the timestamp of the second. *)
Example replaced_between_read_and_stat :
  exists rd v1,
    newReader Sample.env Sample.dbfile Sample.stocked = Done (Val rd, v1) /\
    rbuf rd = Sample.bs "geodata" /\
    outside (WriteFile Sample.dbfile (Sample.bs "hello") (Sample.at_ 900)) v1
      = Done (tt, Scene.swapped) /\
    exists w',
      openFileStat rd Scene.swapped = Done (None, w') /\
      reader (db w') = Some rd /\
      Date w' = Done (time.UTC (Sample.at_ 900), w').
Proof.
  eexists _, _. split; [vm_compute; reflexivity|]. split; [reflexivity|].
  split; [vm_compute; reflexivity|].
  eexists. split; [vm_compute; reflexivity|]. split; vm_compute; reflexivity.
Qed.

(** C2 (as stated) fails. The handle has loaded a file modified at instant
    200; an install with modification time 100 succeeds and moves [Date] back
    from 200 to 100. *)
Lemma Date_moves_back :
  ~ (forall w rd t w',
        coherent w -> closed (db w) = false ->
        setReader rd t w = Done (tt, w') ->
        time.instant (lastUpdated (db w)) <= time.instant (lastUpdated (db w'))).
Proof.
  intros H.
  pose proof (H Sample.loaded (mkReader 1 (Sample.bs "older")) (Sample.at_ 100) _
                coherent_loaded eq_refl eq_refl) as K.
  vm_compute in K. apply K. reflexivity.
Qed.

(** The same through the watcher: an older snapshot is moved over the
    database file, the watcher reloads it, and [Date] goes from 200 to 100. *)
Example reload_of_older_file :
  Date Sample.restored = Done (time.UTC (Sample.at_ 200), Sample.restored) /\
  exists w',
    watchEventsPass Sample.env Sample.modify Sample.restored = Done (Continue, w') /\
    Date w' = Done (time.UTC (Sample.at_ 100), w').
Proof. split; [vm_compute; reflexivity|]. eexists. split; vm_compute; reflexivity. Qed.

(** * The backoff of the update scheduler *)

Lemma wrap64_small z : minInt64 <= z <= maxInt64 -> wrap64 z = z.
Proof.
  unfold minInt64, maxInt64, wrap64. intros H.
  rewrite Z.mod_small by lia. lia.
Qed.

Lemma nextBackoff_first maxRetry update st :
  retrying st = false ->
  nextBackoff maxRetry update true st = mkBackoff (5 * time.Second) true.
Proof. intros H. unfold nextBackoff. rewrite H. reflexivity. Qed.

Lemma nextBackoff_again maxRetry update st k :
  0 <= maxRetry -> 2 * maxRetry <= maxInt64 ->
  retrying st = true -> sleep st = retryWait maxRetry k ->
  nextBackoff maxRetry update true st = mkBackoff (retryWait maxRetry (S k)) true.
Proof.
  intros H0 Hmax Hr Hs. unfold nextBackoff. rewrite Hr. cbn [negb]. f_equal.
  assert (0 <= sleep st /\ sleep st * 2 <= maxInt64 /\
          Z.min (sleep st * 2) maxRetry = retryWait maxRetry (S k)) as (Hlo & Hhi & Hmin).
  { rewrite Hs. destruct k as [|k]; cbn [retryWait].
    - unfold time.Second, maxInt64. split; [lia|]. split; [lia|].
      change (Z.of_nat 1) with 1. lia.
    - assert (0 < 2 ^ Z.of_nat (S k)) by (apply Z.pow_pos_nonneg; lia).
      replace (2 ^ Z.of_nat (S (S k))) with (2 * 2 ^ Z.of_nat (S k))
        by (rewrite (Nat2Z.inj_succ (S k)), Z.pow_succ_r by lia; reflexivity).
      unfold time.Second in *. lia. }
  rewrite wrap64_small by (unfold minInt64; lia).
  rewrite <- Hmin. destruct (Z.gtb_spec (sleep st * 2) maxRetry); lia.
Qed.

Lemma waits_failures maxRetry update st k n :
  0 <= maxRetry -> 2 * maxRetry <= maxInt64 ->
  retrying st = true -> sleep st = retryWait maxRetry k ->
  waits maxRetry update (replicate n true) st
    = map (fun i => retryWait maxRetry (S k + i)) (seq 0 n).
Proof.
  intros H0 Hmax. revert st k. induction n as [|n IH]; intros st k Hr Hs; [reflexivity|].
  cbn [replicate waits]. rewrite (nextBackoff_again _ _ _ k) by assumption.
  cbn [sleep seq map]. rewrite Nat.add_0_r. f_equal.
  rewrite (IH _ (S k)) by reflexivity.
  rewrite <- seq_shift, map_map. apply map_ext. intros i. f_equal. lia.
Qed.


(** With a maximum above half the largest [int64] the doubling wraps around:
    the 32nd consecutive failure waits a negative duration. *)
Example backoff_wraps :
  waits maxInt64 (3600 * time.Second) (replicate 32 true) (mkBackoff 0 false) !! 31%nat
    = Some (-7709325833709551616).
Proof. vm_compute. reflexivity. Qed.

(** With a negative maximum the wait keeps doubling below the maximum. *)
Example backoff_negative_maximum :
  waits (-1) (3600 * time.Second) (replicate 4 true) (mkBackoff 0 false)
    = [5 * time.Second; -1; -2; -4].
Proof. vm_compute. reflexivity. Qed.

(** The loop of [autoUpdate] computes its next wait with [nextBackoff] from
    the outcome of [runUpdate], and waits that long. *)
Lemma autoUpdateCycle_backoff env url st w :
  coherent w ->
  exists err w1 w',
    runUpdate env url w = Done (err, w1) /\
    autoUpdateCycle env url st w =
      Done (nextBackoff (maxRetryInterval (db w)) (updateInterval (db w))
                        (bool_decide (err <> None)) st, w').
Proof.
  intros C. destruct (keeps_runUpdate env url w) as (err & w1 & E & D & L).
  assert (coherent w1) as C1 by exact (about_handle_coherent w w1 D L C).
  exists err, w1. unfold autoUpdateCycle, bind. rewrite E.
  destruct err as [e|].
  - destruct (sendError_post ("Database update failed: " +:+ e) w1 C1)
      as (w2 & E2 & _ & _ & _ & _ & _ & _ & Hu & Hm).
    rewrite E2. exists w2. unfold getDB, ret. rewrite bool_decide_eq_true_2 by discriminate.
    split; [reflexivity|]. rewrite Hu, Hm, D. reflexivity.
  - exists w1. unfold ret, getDB. rewrite bool_decide_eq_false_2 by (intros H; apply H; reflexivity).
    split; [reflexivity|]. rewrite D. reflexivity.
Qed.

(** * The staleness check *)

(** No local file: stale, and no request was made (the world, with its log
    of requests, is as before). *)
Lemma needUpdate_missing env url w :
  node (fs w) (file (db w)) = None ->
  needUpdate env url w = Done ((true, None), w).
Proof.
  intros N. unfold needUpdate, bind, getDB, os_Stat, bind, getFS. rewrite N. reflexivity.
Qed.

(** A local file and an answer to the [HEAD] request: one request is made,
    and the file is stale exactly when its size differs from what
    [strconv.Atoi] made of the length header. *)
Lemma needUpdate_present env url w data mtime contentLength :
  node (fs w) (file (db w)) = Some (File data mtime) ->
  http_Head env url = Val contentLength ->
  needUpdate env url w =
    Done ((negb (blen data =? (strconv.Atoi contentLength).1), None),
          mkWorld (db w) (fs w) (clock w) (nextReader w) (HeadRequest url :: log w)).
Proof.
  intros N H. unfold needUpdate, bind, getDB, os_Stat, bind, getFS. rewrite N. cbn.
  rewrite H. destruct (strconv.Atoi contentLength) as [size e]. cbn.
  destruct (blen data =? size); reflexivity.
Qed.

(** The absent length header does not parse and counts as length 0. *)
Lemma Atoi_unparsable : strconv.Atoi "" = (0, Some "strconv.Atoi: parsing : invalid syntax").
Proof. reflexivity. Qed.

(** C4 (the code at the failing input). The local file exists and is empty
    and the answer to the [HEAD] request has no length header: [needUpdate]
    reports that no update is needed. *)
Theorem needUpdate_empty_file_without_length :
  needUpdate Sample.noLength Sample.url Sample.truncated =
    Done ((false, None),
          mkWorld (db Sample.truncated) (fs Sample.truncated) (clock Sample.truncated)
                  (nextReader Sample.truncated) [HeadRequest Sample.url]).
Proof. vm_compute. reflexivity. Qed.

(** * The temporary file of a download *)

Lemma os_RemoveAll_removes p w :
  exists w', os_RemoveAll p w = Done (None, w') /\ fs w' !! p = None /\ db w' = db w.
Proof.
  eexists. split; [reflexivity|]. split; [|reflexivity]. cbn.
  apply map_lookup_filter_None. right. intros x _. cbn. unfold below.
  rewrite String.eqb_refl. discriminate.
Qed.

(** When the download succeeded and the rename into place fails, [runUpdate]
    removes the temporary file and returns the error of the rename. *)
Lemma runUpdate_failed_rename env url w w1 w2 w3 tmpfile err :
  needUpdate env url w = Done ((true, None), w1) ->
  download env url w1 = Done ((tmpfile, None), w2) ->
  renameFile tmpfile w2 = Done (Some err, w3) ->
  exists w', runUpdate env url w = Done (Some err, w') /\ fs w' !! tmpfile = None.
Proof.
  intros E1 E2 E3. unfold runUpdate, bind. rewrite E1, E2, E3.
  destruct (os_RemoveAll_removes tmpfile w3) as (w' & E & N & _).
  rewrite E. exists w'. split; [reflexivity|exact N].
Qed.

Example failed_rename_cleans_up :
  exists w', runUpdate Sample.env Sample.url Sample.blocked
             = Done (Some "rename /tmp/freegeoip/db.gz: no such file or directory", w') /\
             fs w' !! Sample.tmpfile = None.
Proof. eexists. split; vm_compute; reflexivity. Qed.

(** C6 (the code at the failing input). There is no local file, the download
    starts and its body breaks off after three bytes: [runUpdate] returns the
    error of the copy and the temporary file, with the three bytes, is still
    there. *)
Theorem failed_download_leaves_tmpfile :
  exists w',
    runUpdate Sample.broken Sample.url Sample.empty = Done (Some "unexpected EOF", w') /\
    fs Sample.empty !! Sample.tmpfile = None /\
    fs w' !! Sample.tmpfile
      = Some (File (Sample.bs "hel") (Sample.at_ 63000000000000000000)).
Proof. eexists. split; [|split]; vm_compute; reflexivity. Qed.

(** * Reloads of the watcher *)

(** A pass of the watcher never sends on the error channel and never ends the
    loop on an event or a watcher error. *)
Lemma watchEventsPass_silent env sel w :
  coherent w -> sel <> GotQuit ->
  exists w',
    watchEventsPass env sel w = Done (Continue, w') /\
    notifyError (db w') = notifyError (db w).
Proof.
  intros C Hsel.
  assert (preserves (fun w' => coherent w' /\ notifyError (db w') = notifyError (db w))
                    (openFile env)) as P.
  { apply preserves_openFile.
    - intros w1 w2 D L [H1 H2]. split; [exact (about_handle_coherent w1 w2 D L H1)|].
      congruence.
    - intros rd t w1 [H1 H2].
      destruct (setReader_post rd t w1 H1) as (w2 & E & C2 & _ & _ & _ & He & _).
      exists tt, w2. split; [exact E|]. split; [exact C2|]. congruence. }
  destruct sel as [ev|e|]; [| |congruence]; cbn [watchEventsPass]; unfold bind, getDB.
  - destruct (String.eqb (Name ev) (file (db w)) && (IsCreate ev || IsModify ev)).
    + destruct (P w (conj C eq_refl)) as (r & w1 & E & _ & He). rewrite E. cbn.
      eexists. split; [reflexivity|]. exact He.
    + cbn. eexists. split; reflexivity.
  - cbn. eexists. split; reflexivity.
Qed.

(** C7 (the code at the failing input). The database file does not exist and
    the watcher receives a create event for it: [openFile] fails, the pass
    drops the error, nothing is sent on the error channel, and the loop goes
    on. *)
Theorem watcher_drops_load_error :
  openFile Sample.env Sample.empty
    = Done (Some "open /tmp/freegeoip/db.gz: no such file or directory", Sample.empty) /\
  exists w',
    watchEventsPass Sample.env Sample.created Sample.empty = Done (Continue, w') /\
    db w' = db Sample.empty /\
    chan.buf (notifyError (db w')) = [].
Proof.
  split; [vm_compute; reflexivity|].
  eexists. split; [|split]; vm_compute; reflexivity.
Qed.

(** The scheduler does report its failures: the sibling path. *)
Example scheduler_reports_failure :
  exists st w',
    autoUpdateCycle Sample.broken Sample.url (mkBackoff 0 false) Sample.empty
      = Done (st, w') /\
    chan.buf (notifyError (db w')) = ["Database update failed: unexpected EOF"].
Proof. eexists _, _. split; vm_compute; reflexivity. Qed.

(** * The pause of the watcher *)

Lemma openFile_loads env w data mtime gz b :
  coherent w ->
  node (fs w) (file (db w)) = Some (File data mtime) ->
  gzip_NewReader env data = Val gz -> ioutil_ReadAll env gz = Val b ->
  maxminddb_reject env b = None ->
  exists w',
    openFile env w = Done (None, w') /\ coherent w' /\
    fs w' = fs w /\ file (db w') = file (db w) /\
    nextReader w' = S (nextReader w) /\ clock w' = clock w.
Proof.
  intros C N G R J.
  unfold openFile, bind, getDB, newReader, bind, os_Open, os_Stat, bind, getFS.
  rewrite N. cbn -[setReader]. rewrite G. cbn -[setReader]. rewrite R. cbn -[setReader].
  rewrite J. cbn -[setReader]. rewrite N. cbn -[setReader].
  set (w1 := mkWorld (db w) (fs w) (clock w) (S (nextReader w)) (log w)).
  destruct (setReader_post (mkReader (nextReader w) b) mtime w1 C)
    as (w2 & E & C2 & _ & Hf & _ & _ & F2 & K2 & N2 & _).
  fold w1. rewrite E. exists w2. cbn. auto 10.
Qed.

(** The loop pauses one second after every event and every watcher error,
    before its next [select]. While the database file loads, each create or
    modify event received for the canonical path builds a decoder: after the
    receptions [sels] the loop is back in its [select], [reloads] decoders
    were built and one second passed per reception. *)
Lemma watcher_reloads_per_event env sels w data mtime gz b :
  coherent w ->
  node (fs w) (file (db w)) = Some (File data mtime) ->
  gzip_NewReader env data = Val gz -> ioutil_ReadAll env gz = Val b ->
  maxminddb_reject env b = None ->
  Forall (fun sel => sel <> GotQuit) sels ->
  exists w',
    watchEvents env sels w = Done (Continue, w') /\
    nextReader w' = (nextReader w + reloads (file (db w)) sels)%nat /\
    clock w' = clock w + Z.of_nat (length sels) * time.Second.
Proof.
  intros C N G R J Hs. revert w C N.
  induction Hs as [|sel rest Hsel _ IH]; intros w C N.
  - exists w. cbn. split; [reflexivity|]. split; lia.
  - cbn [watchEvents reloads length]. unfold bind at 1.
    assert (exists w1,
               watchEventsPass env sel w = Done (Continue, w1) /\ coherent w1 /\
               fs w1 = fs w /\ file (db w1) = file (db w) /\
               nextReader w1
                 = (nextReader w + if triggers (file (db w)) sel then 1 else 0)%nat /\
               clock w1 = clock w + time.Second) as (w1 & E & C1 & F1 & Hf & N1 & K1).
    { destruct sel as [ev|e|]; [| |congruence]; cbn [watchEventsPass triggers];
        unfold bind, getDB.
      - destruct (String.eqb (Name ev) (file (db w)) && (IsCreate ev || IsModify ev)).
        + destruct (openFile_loads env w data mtime gz b C N G R J)
            as (w1 & E & C1 & F1 & Hf & N1 & K1).
          rewrite E. cbn. eexists. split; [reflexivity|]. cbn.
          split; [exact C1|]. repeat split; auto; unfold time.Second; lia.
        + cbn. eexists. split; [reflexivity|]. cbn. split; [exact C|].
          repeat split; auto; unfold time.Second; lia.
      - cbn. eexists. split; [reflexivity|]. cbn. split; [exact C|].
        repeat split; auto; unfold time.Second; lia. }
    rewrite E.
    destruct (IH w1 C1) as (w' & E' & N' & K'); [rewrite F1, Hf; exact N|].
    exists w'. split; [exact E'|]. rewrite N', K', N1, K1, Hf.
    split; [lia|]. rewrite Nat2Z.inj_succ. lia.
Qed.

Lemma coherent_stocked : coherent Sample.stocked.
Proof. vm_compute. repeat split; auto; discriminate. Qed.

Lemma watcher_reloads_per_event_witness :
  coherent Sample.stocked /\
  Forall (fun sel => sel <> GotQuit) [Sample.modify; GotError "overflow"; Sample.created] /\
  exists w',
    watchEvents Sample.env [Sample.modify; GotError "overflow"; Sample.created]
                Sample.stocked = Done (Continue, w') /\
    nextReader w' = 2%nat /\
    clock w' = clock Sample.stocked + 3 * time.Second.
Proof.
  assert (Forall (fun sel => sel <> GotQuit)
                 [Sample.modify; GotError "overflow"; Sample.created]) as Hs
      by (repeat constructor; discriminate).
  split; [exact coherent_stocked|]. split; [exact Hs|].
  exact (watcher_reloads_per_event Sample.env _ Sample.stocked (Sample.bs "geodata")
           (Sample.at_ 200) (Sample.bs "geodata") (Sample.bs "geodata")
           coherent_stocked eq_refl eq_refl eq_refl eq_refl Hs).
Defined.

(** One reload for the three events is not what the loop does. *)
Lemma three_events_three_reloads :
  ~ (forall w',
        watchEvents Sample.env [Sample.modify; Sample.modify; Sample.modify] Sample.stocked
          = Done (Continue, w') ->
        nextReader w' = (nextReader Sample.stocked + 1)%nat).
Proof.
  intros H.
  assert (exists w',
             watchEvents Sample.env [Sample.modify; Sample.modify; Sample.modify]
                         Sample.stocked = Done (Continue, w') /\
             nextReader w' = 3%nat) as (w' & E & N)
      by (eexists; split; vm_compute; reflexivity).
  specialize (H w' E). rewrite N in H. discriminate H.
Qed.

(** C9 (the code at the failing input). The watcher receives three modify
    events for the database file in a row, as one replacement of the file
    produces them. Each pass loads the file and then sleeps one second: three
    decoders are built and installed, the first two are closed by the
    installs that replace them, and three seconds pass. The pause that the
    source comments with [Suppress high-rate events] suppresses none of
    them. *)
Theorem burst_is_reloaded_per_event :
  exists w',
    watchEvents Sample.env [Sample.modify; Sample.modify; Sample.modify] Sample.stocked
      = Done (Continue, w') /\
    nextReader Sample.stocked = 0%nat /\ nextReader w' = 3%nat /\
    reader (db w') = Some (mkReader 2 (Sample.bs "geodata")) /\
    log w' = [Slept time.Second; ReaderClosed 1; Slept time.Second; ReaderClosed 0;
              Slept time.Second] /\
    clock w' = clock Sample.stocked + 3 * time.Second.
Proof.
  eexists. split; [|split; [|split; [|split; [|split]]]]; vm_compute; reflexivity.
Qed.

(** * [Date] before the first load *)

Lemma about_handle_unloaded : about_handle unloaded.
Proof.
  intros w w' D L [C H]. split; [exact (about_handle_coherent w w' D L C)|].
  rewrite D. exact H.
Qed.

Lemma unloaded_setReader rd t : preserves unloaded (setReader rd t).
Proof.
  intros w [C H].
  destruct (setReader_post rd t w C)
    as (w' & E & C' & Hc & _ & _ & _ & _ & _ & _ & _ & Hclosed & Hopen).
  exists tt, w'. split; [exact E|]. split; [exact C'|].
  destruct (closed (db w)) eqn:Hcw.
  - destruct (Hclosed eq_refl) as [D _]. rewrite D.
    destruct H as [H|[_ H]]; [left; exact H|congruence].
  - right. destruct (Hopen eq_refl) as [Hr _]. rewrite Hr. split; [discriminate|exact Hc].
Qed.

Lemma unloaded_sendError err : preserves unloaded (sendError err).
Proof.
  intros w [C H].
  destruct (sendError_post err w C) as (w' & E & C' & Hc & Hr & Hl & _).
  exists tt, w'. split; [exact E|]. split; [exact C'|]. rewrite Hc, Hr, Hl. exact H.
Qed.

Lemma never_loaded_step env s w w' :
  coherent w -> lastUpdated (db w) = time.zero ->
  step env s w = Done (tt, w') -> reader (db w') = None ->
  coherent w' /\ lastUpdated (db w') = time.zero.
Proof.
  intros C Z E Hr. destruct s as [op|e]; cbn [step] in E.
  - assert (op = OpClose \/ op <> OpClose) as [->|Hop]
      by (destruct op; (left; reflexivity) || (right; discriminate)).
    + cbn [perform] in E. destruct (Close_post w C) as (w1 & E1 & C1 & _ & _ & Hl & _).
      assert (w1 = w') as -> by congruence. split; [exact C1|congruence].
    + destruct (preserves_background env unloaded about_handle_unloaded
                  unloaded_setReader unloaded_sendError op Hop w (conj C (or_introl Z)))
        as ([] & w1 & E1 & C1 & H1).
      assert (w1 = w') as -> by congruence. split; [exact C1|].
      destruct H1 as [H1|[H1 _]]; [exact H1|]. destruct (H1 Hr).
  - destruct (outside_post e w C) as (w1 & E1 & C1 & _ & _ & Hl & _).
    assert (w1 = w') as -> by congruence. split; [exact C1|congruence].
Qed.

Lemma never_loaded_run env steps w w' :
  coherent w -> lastUpdated (db w) = time.zero ->
  run env steps w = Done (tt, w') ->
  Forall (fun v => reader (db v) = None) (states env steps w) ->
  lastUpdated (db w') = time.zero.
Proof.
  revert w. induction steps as [|s rest IH]; intros w C Z E Hs.
  - assert (w = w') as <- by (cbn in E; unfold ret in E; congruence). exact Z.
  - cbn [run states] in *. unfold bind in E.
    destruct (step env s w) as [[[] w1]|msg] eqn:E1; [|discriminate].
    apply Forall_cons in Hs as [H1 Hs].
    destruct (never_loaded_step env s w w1 C Z E1 H1) as [C1 Z1].
    exact (IH w1 C1 Z1 E Hs).
Qed.

Lemma OpenURL_unloaded env url u m w00 w0 :
  OpenURL env url u m w00 = Done (None, w0) -> unloaded w0.
Proof.
  unfold OpenURL. unfold bind at 1. cbn [putDB].
  set (w1 := mkWorld _ _ _ _ _).
  assert (unloaded w1) as U1.
  { split; [|left; reflexivity]. unfold coherent. cbn. repeat split; auto; discriminate. }
  unfold bind at 1.
  destruct (preserves_openFile env unloaded about_handle_unloaded unloaded_setReader w1 U1)
    as (r & w2 & E2 & U2).
  rewrite E2. unfold bind at 1.
  destruct (keeps_watchFile env w2) as (err & w3 & E3 & D3 & L3). rewrite E3.
  destruct err as [err|].
  - unfold bind, getDB.
    destruct (Close _) as [[[] w4]|]; discriminate.
  - intros [= <-]. exact (about_handle_unloaded w2 w3 D3 L3 U2).
Qed.

(** C10. The handle that [OpenURL] returns when the initial load failed has
    the zero timestamp, and [Date] keeps returning it along every execution
    up to the first step that installs a decoder. *)
Theorem Date_zero_until_first_install env url u m w00 w0 steps w :
  OpenURL env url u m w00 = Done (None, w0) ->
  reader (db w0) = None ->
  run env steps w0 = Done (tt, w) ->
  Forall (fun v => reader (db v) = None) (states env steps w0) ->
  Date w0 = Done (time.zero, w0) /\ Date w = Done (time.zero, w).
Proof.
  intros E0 Hr E Hs. destruct (OpenURL_unloaded env url u m w00 w0 E0) as [C [Z|[H _]]];
    [|destruct (H Hr)].
  pose proof (never_loaded_run env steps w0 w C Z E Hs) as Zw.
  unfold Date, bind, getDB, ret. rewrite Z, Zw. split; reflexivity.
Qed.

Lemma Date_zero_until_first_install_witness :
  OpenURL Sample.broken Sample.url (3600 * time.Second) (60 * time.Second) Sample.empty
    = Done (None, Sample.opened) /\
  reader (db Sample.opened) = None /\
  (exists w,
      run Sample.broken Sample.failing Sample.opened = Done (tt, w) /\
      Forall (fun v => reader (db v) = None)
             (states Sample.broken Sample.failing Sample.opened) /\
      Date Sample.opened = Done (time.zero, Sample.opened) /\
      Date w = Done (time.zero, w)).
Proof.
  assert (OpenURL Sample.broken Sample.url (3600 * time.Second) (60 * time.Second)
                  Sample.empty = Done (None, Sample.opened)) as E0
      by (vm_compute; reflexivity).
  assert (exists w, run Sample.broken Sample.failing Sample.opened = Done (tt, w))
    as [w E] by (eexists; vm_compute; reflexivity).
  assert (Forall (fun v => reader (db v) = None)
                 (states Sample.broken Sample.failing Sample.opened)) as Hs
      by (vm_compute; repeat constructor).
  split; [exact E0|]. split; [reflexivity|]. exists w.
  split; [exact E|]. split; [exact Hs|].
  exact (Date_zero_until_first_install Sample.broken Sample.url _ _ Sample.empty
           Sample.opened Sample.failing w E0 eq_refl E Hs).
Defined.


(** * Loads that fail, and the constructors *)

(** How [openFile] ends: with an error before the install step, or with the
    install of a decoder allocated for the content of the file. *)
Lemma openFile_cases env w :
  (exists e w',
      openFile env w = Done (Some e, w') /\ db w' = db w /\ fs w' = fs w /\
      log w' = log w /\ clock w' = clock w /\ nextReader w' = nextReader w) \/
  (exists data mtime gz b,
      node (fs w) (file (db w)) = Some (File data mtime) /\
      gzip_NewReader env data = Val gz /\ ioutil_ReadAll env gz = Val b /\
      maxminddb_reject env b = None /\
      openFile env w =
        (setReader (mkReader (nextReader w) b) mtime ;;; ret None)
          (mkWorld (db w) (fs w) (clock w) (S (nextReader w)) (log w))).
Proof.
  unfold openFile, bind, getDB, newReader, bind, os_Open, os_Stat, bind, getFS.
  destruct (node (fs w) (file (db w))) as [[data mtime|]|] eqn:N; cbn -[setReader];
    try (left; eexists _, w; repeat split; reflexivity).
  destruct (gzip_NewReader env data) as [gz|] eqn:G; cbn -[setReader];
    try (left; eexists _, w; repeat split; reflexivity).
  destruct (ioutil_ReadAll env gz) as [b|] eqn:R; cbn -[setReader];
    try (left; eexists _, w; repeat split; reflexivity).
  destruct (maxminddb_reject env b) eqn:J; cbn -[setReader];
    try (left; eexists _, w; repeat split; reflexivity).
  rewrite N. cbn -[setReader]. right. exists data, mtime, gz, b.
  repeat (split; [assumption || reflexivity|]). reflexivity.
Qed.

(** X9. A load that fails changes nothing of the handle: the active
    decoder, the timestamp and the channels are as before, no decoder was
    closed, and the file system and the clock are untouched. *)
Theorem failed_load_changes_nothing env w e w' :
  openFile env w = Done (Some e, w') ->
  db w' = db w /\ log w' = log w /\ fs w' = fs w /\ clock w' = clock w.
Proof.
  intros E. destruct (openFile_cases env w) as [(e1 & w1 & E1 & D & F & L & K & N)|
                                               (data & mtime & gz & b & _ & _ & _ & _ & E1)].
  - assert (w1 = w') as -> by congruence. auto.
  - rewrite E1 in E. unfold bind in E.
    destruct (setReader _ _ _) as [[[] w2]|]; discriminate.
Qed.

Lemma failed_load_changes_nothing_witness :
  openFile Sample.env Scene.corrupted = Done (Some "EOF", Scene.retried) /\
  db Scene.retried = db Scene.corrupted /\ log Scene.retried = log Scene.corrupted /\
  fs Scene.retried = fs Scene.corrupted /\ clock Scene.retried = clock Scene.corrupted.
Proof.
  assert (openFile Sample.env Scene.corrupted = Done (Some "EOF", Scene.retried))
    as E by (vm_compute; reflexivity).
  split; [exact E|].
  exact (failed_load_changes_nothing Sample.env Scene.corrupted "EOF" Scene.retried E).
Defined.


(** * The directory of the database file *)

Lemma node_insert_same f p n :
  node f p = None -> node (<[p := n]> f) p = Some n.
Proof.
  unfold node. destruct (bool_decide _); [discriminate|]. intros _.
  apply lookup_insert_eq.
Qed.

Lemma node_insert_keeps f p n q m :
  node f p = None -> node f q = Some m -> node (<[p := n]> f) q = Some m.
Proof.
  unfold node. destruct (bool_decide (p = "/" ∨ p = ".")); [discriminate|].
  destruct (bool_decide (q = "/" ∨ q = ".")); [auto|].
  intros Hp Hq. rewrite lookup_insert_ne; [exact Hq|]. intros ->. congruence.
Qed.

(** [os.MkdirAll], when it succeeds, leaves a directory at the path and keeps
    what was there. *)
Lemma mkdirAll_post fuel p f f' :
  mkdirAll fuel p f = Val f' ->
  node f' p = Some Dir /\ forall q m, node f q = Some m -> node f' q = Some m.
Proof.
  revert p f'. induction fuel as [|fuel IH]; intros p f'; cbn [mkdirAll].
  - destruct (node f p) as [[data mtime|]|] eqn:N; try discriminate.
    intros [= <-]. auto.
  - destruct (node f p) as [[data mtime|]|] eqn:N; try discriminate.
    + intros [= <-]. auto.
    + destruct (mkdirAll fuel (filepath_Dir p) f) as [f1|] eqn:E; [|discriminate].
      destruct (IH _ _ E) as [_ K1]. unfold os_Mkdir.
      destruct (node f1 p) eqn:N1; [discriminate|].
      destruct (node f1 (filepath_Dir p)) as [[data mtime|]|]; try discriminate.
      intros [= <-]. split; [apply node_insert_same, N1|].
      intros q m Hq. apply node_insert_keeps; auto.
Qed.

(** X8. [makeDir] touches nothing but the file system. When it returns a
    directory, that is the directory part of the database path, something
    exists at it (a regular file passes too: only the error of [os.Stat] is
    looked at), and whatever existed before still does. When it fails the
    file system is as before. *)
Theorem makeDir_ensures_directory w :
  exists r w',
    makeDir w = Done (r, w') /\
    db w' = db w /\ log w' = log w /\ clock w' = clock w /\
    nextReader w' = nextReader w /\
    match r with
    | Val dbdir =>
        dbdir = filepath_Dir (file (db w)) /\
        is_Some (node (fs w') dbdir) /\
        forall q m, node (fs w) q = Some m -> node (fs w') q = Some m
    | Fail _ => fs w' = fs w /\ node (fs w) (filepath_Dir (file (db w))) = None
    end.
Proof.
  unfold makeDir, bind, getDB, os_Stat, bind, getFS, os_MkdirAll, bind, getFS.
  destruct (node (fs w) (filepath_Dir (file (db w)))) as [n|] eqn:N.
  - exists (Val (filepath_Dir (file (db w)))), w.
    destruct n; cbn; rewrite N; repeat split; eauto.
  - cbn.
    destruct (mkdirAll _ _ (fs w)) as [f'|e] eqn:E; cbn.
    + destruct (mkdirAll_post _ _ _ _ E) as [H1 H2].
      eexists _, _. split; [reflexivity|]. cbn. repeat split; eauto.
    + eexists _, _. split; [reflexivity|]. cbn. repeat split; eauto.
Qed.

(** What [watchFile] leaves behind. *)
Lemma watchFile_post env w :
  exists r w',
    watchFile env w = Done (r, w') /\
    db w' = db w /\ log w' = log w /\ clock w' = clock w /\
    nextReader w' = nextReader w /\
    (forall q m, node (fs w) q = Some m -> node (fs w') q = Some m) /\
    (r = None ->
     fsnotify_NewWatcher env = None /\
     fsnotify_Watch env (filepath_Dir (file (db w))) = None /\
     is_Some (node (fs w') (filepath_Dir (file (db w))))) /\
    (fsnotify_NewWatcher env = None ->
     fsnotify_Watch env (filepath_Dir (file (db w))) = None ->
     is_Some (node (fs w) (filepath_Dir (file (db w)))) -> r = None).
Proof.
  unfold watchFile. destruct (fsnotify_NewWatcher env) as [e|] eqn:W.
  - exists (Some e), w. repeat split; auto; discriminate.
  - unfold bind. destruct (makeDir_ensures_directory w)
      as (r & w' & E & D & L & K & N & H). rewrite E.
    destruct r as [dbdir|e].
    + destruct H as (-> & Hd & Hk).
      exists (fsnotify_Watch env (filepath_Dir (file (db w)))), w'.
      repeat split; auto.
    + destruct H as [F Hn]. exists (Some e), w'.
      repeat split; auto; try discriminate.
      * rewrite F. auto.
      * intros _ _ [m Hm]. congruence.
Qed.


(** * [Open] and [OpenURL] *)

Lemma coherent_newDB dsn u m f k n l : coherent (mkWorld (newDB dsn u m) f k n l).
Proof. unfold coherent. cbn. repeat split; auto; discriminate. Qed.

(** The install of the first decoder into the handle that [newDB] built. *)
Lemma setReader_newDB dsn u m f k n l rd t :
  setReader rd t (mkWorld (newDB dsn u m) f k n l) =
    Done (tt, mkWorld (mkDB dsn (Some rd) (chan.make 0) (chan.mk [dsn] 1 false)
                            (chan.make 1) false (time.UTC t) u m) f k n l).
Proof. reflexivity. Qed.

(** X1. [Open] never panics. When it returns no error the handle is open,
    holds a decoder for the decompressed content of the file, is dated with
    the file's modification time and has announced the file on [notifyOpen].
    When it returns an error the handle has been closed and holds no
    decoder. *)
Theorem Open_outcome env dsn w :
  exists r w',
    Open env dsn w = Done (r, w') /\ coherent w' /\ file (db w') = dsn /\
    match r with
    | None =>
        closed (db w') = false /\
        exists data mtime gz b,
          node (fs w) dsn = Some (File data mtime) /\
          gzip_NewReader env data = Val gz /\ ioutil_ReadAll env gz = Val b /\
          maxminddb_reject env b = None /\
          reader (db w') = Some (mkReader (nextReader w) b) /\
          lastUpdated (db w') = time.UTC mtime /\
          chan.buf (NotifyOpen (db w')) = [dsn]
    | Some _ => closed (db w') = true /\ reader (db w') = None
    end.
Proof.
  unfold Open. unfold bind at 1. cbn [putDB].
  set (w1 := mkWorld (newDB dsn 0 0) (fs w) (clock w) (nextReader w) (log w)).
  assert (coherent w1) as C1 by apply coherent_newDB.
  unfold bind at 1.
  destruct (openFile_cases env w1)
    as [(e & w2 & E & D & _)|(data & mtime & gz & b & N & G & R & J & E)].
  - rewrite E. unfold bind.
    assert (coherent w2) as C2 by (unfold coherent; rewrite D; exact C1).
    destruct (Close_post w2 C2) as (w3 & E3 & C3 & Hc & Hr & _). rewrite E3.
    exists (Some e), w3. split; [reflexivity|]. split; [exact C3|].
    split; [|auto].
    clear -E3 D C2. unfold Close, bind, getDB in E3. rewrite D in E3. cbn in E3.
    injection E3 as <-. reflexivity.
  - rewrite E. cbn [w1 db fs clock nextReader log]. unfold bind at 1.
    rewrite setReader_newDB. cbn [ret].
    set (w2 := mkWorld _ _ _ _ _). unfold bind at 1.
    destruct (watchFile_post env w2) as (r & w3 & E3 & D3 & _).
    rewrite E3. destruct r as [err|].
    + unfold bind.
      assert (coherent w3) as C3
          by (unfold coherent; rewrite D3; cbn; repeat split; auto; discriminate).
      destruct (Close_post w3 C3) as (w4 & E4 & C4 & Hc & Hr & _). rewrite E4.
      eexists _, w4. split; [reflexivity|]. split; [exact C4|]. split; [|auto].
      clear -E4 D3. unfold Close, bind, getDB in E4. rewrite D3 in E4. cbn in E4.
      injection E4 as <-. reflexivity.
    + exists None, w3. split; [reflexivity|].
      split; [unfold coherent; rewrite D3; cbn; repeat split; auto; discriminate|].
      rewrite D3. cbn. split; [reflexivity|]. split; [reflexivity|].
      exists data, mtime, gz, b. cbn in N. auto 10.
Qed.




(** The cache path for the temporary directories [/] and [/tmp/], and
    [OpenURL] where a regular file sits at the path of the cache directory:
    the file is taken for the directory and the watch is all that counts. *)
Example OpenURL_paths :
  defaultDB (mkEnv "/" (gzip_NewReader Sample.env) (ioutil_ReadAll Sample.env)
                   (maxminddb_reject Sample.env) (maxminddb_Lookup Sample.env)
                   (http_Head Sample.env) (http_Get Sample.env)
                   (fsnotify_NewWatcher Sample.env) (fsnotify_Watch Sample.env))
    = "/freegeoip/db.gz" /\
  defaultDB (mkEnv "/tmp/" (gzip_NewReader Sample.env) (ioutil_ReadAll Sample.env)
                   (maxminddb_reject Sample.env) (maxminddb_Lookup Sample.env)
                   (http_Head Sample.env) (http_Get Sample.env)
                   (fsnotify_NewWatcher Sample.env) (fsnotify_Watch Sample.env))
    = Sample.dbfile /\
  defaultDB Sample.env = Sample.dbfile /\
  filepath_Dir "data/../db.gz" = "." /\
  exists w',
    OpenURL Sample.env Sample.url (3600 * time.Second) (60 * time.Second) Sample.blocked
      = Done (None, w') /\
    node (fs w') (filepath_Dir (defaultDB Sample.env))
      = Some (File (Sample.bs "x") (Sample.at_ 50)).
Proof.
  split; [vm_compute; reflexivity|]. split; [vm_compute; reflexivity|].
  split; [vm_compute; reflexivity|]. split; [vm_compute; reflexivity|].
  eexists. split; vm_compute; reflexivity.
Qed.


(** * The notification channels along executions *)

(** A non-blocking send on an open channel of capacity one: taken when the
    channel is empty, dropped when it holds a value. *)
Lemma trySend_one {A} (v : A) (c : chan.t A) :
  chan.closed c = false -> chan.cap c = 1%nat -> (length (chan.buf c) <= 1)%nat ->
  chan.trySend v c =
    Some (chan.mk (match chan.buf c with [] => [v] | _ => chan.buf c end) 1 false,
          match chan.buf c with [] => true | _ => false end).
Proof.
  destruct c as [b k x]. cbn. intros -> -> Hl. unfold chan.trySend. cbn.
  destruct b as [|a [|a' b]]; cbn in Hl; [reflexivity|reflexivity|exfalso; lia].
Qed.

Lemma settled_setReader f u m rd t : preserves (settled f u m) (setReader rd t).
Proof.
  intros w (C & W & Hu & Hm). pose proof C as (Hq & Ho & He & Hr).
  destruct (closed (db w)) eqn:Hc.
  - rewrite (setReader_closed rd t w Hc). eexists _, _. split; [reflexivity|].
    unfold settled, coherent. cbn. rewrite Hc. auto 10.
  - destruct W as (Hf & Kq & Bq & Ko & Ke & Lo & Le & Fo).
    destruct (setReader_open rd t w Hc Ho) as (c & sent & E & Hc' & Eq).
    rewrite trySend_one in E by assumption. injection E as <- _.
    rewrite Eq. eexists _, _. split; [reflexivity|].
    unfold settled, coherent, wired. cbn. rewrite Hf.
    repeat split; auto; try discriminate.
    + destruct (chan.buf (notifyOpen (db w))); cbn in *; lia.
    + destruct (chan.buf (notifyOpen (db w))); [repeat constructor|exact Fo].
Qed.

Lemma settled_sendError f u m err : preserves (settled f u m) (sendError err).
Proof.
  intros w (C & W & Hu & Hm). pose proof C as (Hq & Ho & He & Hr).
  destruct (closed (db w)) eqn:Hc.
  - rewrite (sendError_closed err w Hc). exists tt, w. split; [reflexivity|].
    unfold settled. auto.
  - destruct W as (Hf & Kq & Bq & Ko & Ke & Lo & Le & Fo).
    destruct (sendError_open err w Hc He) as (c & sent & E & Hc' & Eq).
    rewrite trySend_one in E by assumption. injection E as <- _.
    rewrite Eq. eexists _, _. split; [reflexivity|].
    unfold settled, coherent, wired. cbn. rewrite Hc.
    repeat split; auto; try discriminate.
    destruct (chan.buf (notifyError (db w))); cbn in *; lia.
Qed.

Lemma settled_Close f u m : preserves (settled f u m) Close.
Proof.
  intros w (C & W & Hu & Hm). pose proof C as (Hq & Ho & He & Hr).
  destruct (closed (db w)) eqn:Hc.
  - rewrite (Close_closed w Hc), (Hr eq_refl). exists tt, w. split; [reflexivity|].
    unfold settled. auto.
  - rewrite (Close_open w Hc Hq Ho He). eexists _, _. split; [reflexivity|].
    destruct W as (Hf & Kq & Bq & Ko & Ke & Lo & Le & Fo).
    unfold settled, coherent, wired. cbn. repeat split; auto.
Qed.

Lemma settled_outside f u m e : preserves (settled f u m) (outside e).
Proof.
  intros w (C & W & Hu & Hm).
  destruct w as [[fi rd [bq cq xq] [bo co xo] [be ce xe] cl lu ui mr] fsys ck nr lg].
  unfold settled, coherent, wired in *. cbn in *.
  destruct C as (Hq & Ho & He & Hr). destruct W as (Hf & Kq & Bq & Ko & Ke & Lo & Le & Fo).
  destruct e; cbn; unfold bind, getDB, getFS, chan.recv; cbn.
  - destruct bo as [|v bo]; [destruct xo|]; cbn; eexists _, _;
      (split; [reflexivity|]); cbn; repeat split; auto; cbn in *; try lia.
    apply Forall_cons in Fo as [_ Fo]. exact Fo.
  - destruct be as [|v be]; [destruct xe|]; cbn; eexists _, _;
      (split; [reflexivity|]); cbn; repeat split; auto; cbn in *; lia.
  - eexists _, _. split; [reflexivity|]. cbn. repeat split; auto.
  - eexists _, _. split; [reflexivity|]. cbn. repeat split; auto.
  - eexists _, _. split; [reflexivity|]. cbn. repeat split; auto.
Qed.

Lemma settled_run env f u m steps : preserves (settled f u m) (run env steps).
Proof.
  apply preserves_run.
  - intros w w' D _ H. unfold settled, coherent in *. rewrite D. exact H.
  - apply settled_setReader.
  - apply settled_sendError.
  - apply settled_Close.
  - apply settled_outside.
Qed.

Lemma settled_newDB f u m w : db w = newDB f u m -> settled f u m w.
Proof.
  intros D. unfold settled, coherent, wired. rewrite D. cbn.
  repeat split; auto; try discriminate; try lia.
Qed.

(** X3. Along every execution of a handle built for the file [f] with the
    intervals [u] and [m], nothing panics, the file name and the intervals
    stay what they were, [notifyQuit] never holds a value, [notifyOpen] and
    [notifyError] hold at most one, and what [notifyOpen] holds is [f]. *)
Theorem channels_stay_wired env f u m w0 steps :
  db w0 = newDB f u m ->
  exists w,
    run env steps w0 = Done (tt, w) /\
    file (db w) = f /\ updateInterval (db w) = u /\ maxRetryInterval (db w) = m /\
    chan.buf (NotifyClose (db w)) = [] /\
    (length (chan.buf (NotifyOpen (db w))) <= 1)%nat /\
    (length (chan.buf (NotifyError (db w))) <= 1)%nat /\
    Forall (fun v => v = f) (chan.buf (NotifyOpen (db w))).
Proof.
  intros D.
  destruct (settled_run env f u m steps w0 (settled_newDB f u m w0 D))
    as ([] & w & E & _ & (Hf & _ & Bq & _ & _ & Lo & Le & Fo) & Hu & Hm).
  exists w. auto 10.
Qed.

Lemma channels_stay_wired_witness :
  db Sample.stocked = newDB Sample.dbfile (3600 * time.Second) (60 * time.Second) /\
  exists w,
    run Sample.env
        [Handle OpOpenFile; Handle (OpWatchPass Sample.modify);
         Handle (OpSendError "first"); Handle (OpSendError "second")]
        Sample.stocked = Done (tt, w) /\
    file (db w) = Sample.dbfile /\
    updateInterval (db w) = 3600 * time.Second /\
    maxRetryInterval (db w) = 60 * time.Second /\
    chan.buf (NotifyClose (db w)) = [] /\
    (length (chan.buf (NotifyOpen (db w))) <= 1)%nat /\
    (length (chan.buf (NotifyError (db w))) <= 1)%nat /\
    Forall (fun v => v = Sample.dbfile) (chan.buf (NotifyOpen (db w))).
Proof.
  split; [reflexivity|].
  exact (channels_stay_wired Sample.env Sample.dbfile _ _ Sample.stocked _ eq_refl).
Defined.

Lemma reached_settled env f u m w0 steps w :
  db w0 = newDB f u m -> run env steps w0 = Done (tt, w) -> settled f u m w.
Proof.
  intros D E.
  destruct (settled_run env f u m steps w0 (settled_newDB f u m w0 D)) as (a & w' & E' & H).
  assert (w' = w) as -> by congruence. exact H.
Qed.

(** X4. On an open handle the notifications do not block and do not queue:
    [sendError] stores the error when [notifyError] is empty and drops it
    when an earlier error is still unread, so the channel keeps the oldest
    unread error; after every install [notifyOpen] holds the file name
    once. *)
Theorem notifications_keep_the_oldest env f u m w0 steps w :
  db w0 = newDB f u m -> run env steps w0 = Done (tt, w) -> closed (db w) = false ->
  (forall err,
      exists w',
        sendError err w = Done (tt, w') /\
        chan.buf (NotifyError (db w')) =
          match chan.buf (NotifyError (db w)) with
          | [] => [err]
          | unread => unread
          end) /\
  (forall rd t,
      exists w',
        setReader rd t w = Done (tt, w') /\
        chan.buf (NotifyOpen (db w')) = [f]).
Proof.
  intros D E Hc.
  destruct (reached_settled env f u m w0 steps w D E)
    as ((Hq & Ho & He & Hr) & (Hf & Kq & Bq & Ko & Ke & Lo & Le & Fo) & _).
  rewrite Hc in Ho, He. split.
  - intros err. destruct (sendError_open err w Hc He) as (c & sent & E1 & _ & Eq).
    rewrite trySend_one in E1 by assumption. injection E1 as <- _.
    rewrite Eq. eexists. split; [reflexivity|]. unfold NotifyError. cbn.
    destruct (chan.buf (notifyError (db w))); reflexivity.
  - intros rd t. destruct (setReader_open rd t w Hc Ho) as (c & sent & E1 & _ & Eq).
    rewrite trySend_one in E1 by assumption. injection E1 as <- _.
    rewrite Eq. eexists. split; [reflexivity|]. cbn. rewrite Hf.
    unfold NotifyOpen.
    destruct (chan.buf (notifyOpen (db w))) as [|v [|v' b]]; cbn in *; [reflexivity| |lia].
    apply Forall_cons in Fo as [-> _]. reflexivity.
Qed.

Lemma notifications_keep_the_oldest_witness :
  db Sample.stocked = newDB Sample.dbfile (3600 * time.Second) (60 * time.Second) /\
  run Sample.env [Handle OpOpenFile; Handle (OpSendError "first")] Sample.stocked
    = Done (tt, Scene.notified) /\
  closed (db Scene.notified) = false /\
  chan.buf (NotifyError (db Scene.notified)) = ["first"] /\
  (exists w',
      sendError "second" Scene.notified = Done (tt, w') /\
      chan.buf (NotifyError (db w')) =
        match chan.buf (NotifyError (db Scene.notified)) with
        | [] => ["second"]
        | unread => unread
        end) /\
  (exists w',
      setReader (mkReader 5 (Sample.bs "newer")) (Sample.at_ 300) Scene.notified
        = Done (tt, w') /\
      chan.buf (NotifyOpen (db w')) = [Sample.dbfile]).
Proof.
  assert (run Sample.env [Handle OpOpenFile; Handle (OpSendError "first")] Sample.stocked
          = Done (tt, Scene.notified)) as E by (vm_compute; reflexivity).
  assert (closed (db Scene.notified) = false) as Hc by (vm_compute; reflexivity).
  destruct (notifications_keep_the_oldest Sample.env Sample.dbfile _ _ Sample.stocked _
              Scene.notified eq_refl E Hc) as [H1 H2].
  split; [reflexivity|]. split; [exact E|]. split; [exact Hc|].
  split; [vm_compute; reflexivity|].
  split; [exact (H1 "second")|exact (H2 _ _)].
Defined.

(** X6. The quit case of the two background loops is ready exactly when the
    handle is closed: before [Close] a receive on [NotifyClose] blocks and
    neither loop can leave through it; after [Close] the receive yields the
    zero value, the watcher closes its watch and returns, and the scheduler
    returns. *)
Theorem loops_quit_when_closed env f u m w0 steps w st :
  db w0 = newDB f u m -> run env steps w0 = Done (tt, w) ->
  chan.recv (NotifyClose (db w))
    = (if closed (db w) then Some (None, NotifyClose (db w)) else None) /\
  watchEventsPass env GotQuit w
    = (if closed (db w)
       then Done (Return, mkWorld (db w) (fs w) (clock w) (nextReader w)
                                  (WatcherClosed :: log w))
       else Done (Blocked, w)) /\
  autoUpdateWait QuitFired st w
    = (if closed (db w) then Done (Return, w) else Done (Blocked, w)).
Proof.
  intros D E.
  destruct (reached_settled env f u m w0 steps w D E)
    as ((Hq & _) & (_ & _ & Bq & _) & _).
  assert (chan.recv (NotifyClose (db w))
          = if closed (db w) then Some (None, NotifyClose (db w)) else None) as R.
  { unfold chan.recv, NotifyClose. rewrite Bq, Hq. reflexivity. }
  split; [exact R|]. unfold NotifyClose in R.
  cbn [watchEventsPass autoUpdateWait]. unfold bind, getDB. rewrite R.
  destruct (closed (db w)); split; reflexivity.
Qed.

Lemma loops_quit_when_closed_witness :
  db Sample.stocked = newDB Sample.dbfile (3600 * time.Second) (60 * time.Second) /\
  run Sample.env [Handle OpOpenFile; Handle OpClose] Sample.stocked
    = Done (tt, Sample.shut) /\
  closed (db Sample.shut) = true /\
  chan.recv (NotifyClose (db Sample.shut))
    = (if closed (db Sample.shut) then Some (None, NotifyClose (db Sample.shut)) else None) /\
  watchEventsPass Sample.env GotQuit Sample.shut
    = (if closed (db Sample.shut)
       then Done (Return, mkWorld (db Sample.shut) (fs Sample.shut) (clock Sample.shut)
                                  (nextReader Sample.shut) (WatcherClosed :: log Sample.shut))
       else Done (Blocked, Sample.shut)) /\
  autoUpdateWait QuitFired (mkBackoff 0 false) Sample.shut
    = (if closed (db Sample.shut) then Done (Return, Sample.shut)
       else Done (Blocked, Sample.shut)).
Proof.
  assert (run Sample.env [Handle OpOpenFile; Handle OpClose] Sample.stocked
          = Done (tt, Sample.shut)) as E by (vm_compute; reflexivity).
  split; [reflexivity|]. split; [exact E|]. split; [vm_compute; reflexivity|].
  exact (loops_quit_when_closed Sample.env Sample.dbfile _ _ Sample.stocked _ Sample.shut
           (mkBackoff 0 false) eq_refl E).
Defined.


(** * The decoders along executions *)

Lemma spares_ret {A} (a : A) : spares (ret a).
Proof. intros w. exists a, w. auto. Qed.

Lemma spares_bind {A B} (m : M A) (k : A -> M B) :
  spares m -> (forall a, spares (k a)) -> spares (bind m k).
Proof.
  intros Hm Hk w. destruct (Hm w) as (a & w1 & E1 & D1 & N1 & L1).
  destruct (Hk a w1) as (b & w2 & E2 & D2 & N2 & L2).
  exists b, w2. unfold bind. rewrite E1. split; [exact E2|]. repeat split; congruence.
Qed.

Lemma spares_getDB : spares getDB.
Proof. intros w. exists (db w), w. auto. Qed.

Lemma spares_getFS : spares getFS.
Proof. intros w. exists (fs w), w. auto. Qed.

Lemma spares_putFS f : spares (putFS f).
Proof. intros w. eexists _, _. split; [reflexivity|]. auto. Qed.

Lemma spares_time_Now : spares time_Now.
Proof. intros w. eexists _, _. split; [reflexivity|]. auto. Qed.

Lemma spares_pause d : spares (pause d).
Proof. intros w. eexists _, _. split; [reflexivity|]. auto. Qed.

Lemma spares_emit e : (forall id, e <> ReaderClosed id) -> spares (emit e).
Proof.
  intros He w. eexists _, _. split; [reflexivity|]. repeat split.
  cbn. destruct e; try reflexivity. destruct (He id eq_refl).
Qed.

Create HintDb spares.
#[export] Hint Resolve spares_ret spares_getDB spares_getFS spares_putFS spares_time_Now
  spares_pause : spares.

Ltac spares_step :=
  match goal with
  | |- spares (bind _ _) => apply spares_bind; [ | intros ? ]
  | |- spares (emit _) => apply spares_emit; discriminate
  | |- spares (match ?x with _ => _ end) => destruct x
  | |- spares _ => solve [ auto with spares ]
  end.
Ltac spares_tac := repeat spares_step.

Lemma spares_os_Stat p : spares (os_Stat p).
Proof. unfold os_Stat. spares_tac. Qed.

Lemma spares_os_MkdirAll p : spares (os_MkdirAll p).
Proof. unfold os_MkdirAll. spares_tac. Qed.

Lemma spares_os_Create p : spares (os_Create p).
Proof. unfold os_Create. spares_tac. Qed.

Lemma spares_io_Copy p body : spares (io_Copy p body).
Proof. unfold io_Copy. spares_tac. Qed.

Lemma spares_os_Rename old new : spares (os_Rename old new).
Proof. unfold os_Rename. spares_tac. Qed.

Lemma spares_os_RemoveAll p : spares (os_RemoveAll p).
Proof. unfold os_RemoveAll. spares_tac. Qed.

#[export] Hint Resolve spares_os_Stat spares_os_MkdirAll spares_os_Create spares_io_Copy
  spares_os_Rename spares_os_RemoveAll : spares.

Lemma spares_makeDir : spares makeDir.
Proof. unfold makeDir. spares_tac. Qed.

#[export] Hint Resolve spares_makeDir : spares.

Lemma spares_watchFile env : spares (watchFile env).
Proof. unfold watchFile. spares_tac. Qed.

Lemma spares_needUpdate env url : spares (needUpdate env url).
Proof. unfold needUpdate. spares_tac. Qed.

Lemma spares_download env url : spares (download env url).
Proof. unfold download. spares_tac. Qed.

Lemma spares_renameFile name : spares (renameFile name).
Proof. unfold renameFile. spares_tac. Qed.

#[export] Hint Resolve spares_needUpdate spares_download spares_renameFile : spares.

Lemma spares_runUpdate env url : spares (runUpdate env url).
Proof. unfold runUpdate. spares_tac. Qed.

Lemma spares_autoUpdateWait sel st : spares (autoUpdateWait sel st).
Proof. unfold autoUpdateWait. spares_tac. Qed.

Lemma spares_Date : spares Date.
Proof. unfold Date. spares_tac. Qed.

Lemma spares_Lookup env addr : spares (Lookup env addr).
Proof. unfold Lookup. spares_tac. Qed.

Lemma kept_spares {A} (m : M A) : spares m -> preserves kept m.
Proof.
  intros Hm w [C (T1 & T2 & T3)]. destruct (Hm w) as (a & w' & E & D & N & L).
  exists a, w'. split; [exact E|]. unfold kept, coherent, tidy. rewrite D, N, L.
  auto.
Qed.

(** The install of a decoder that was just allocated. *)
Lemma kept_install b t w :
  kept w ->
  exists w',
    setReader (mkReader (nextReader w) b) t
              (mkWorld (db w) (fs w) (clock w) (S (nextReader w)) (log w))
      = Done (tt, w') /\ kept w'.
Proof.
  intros [C (T1 & T2 & T3)]. pose proof C as (Hq & Ho & He & Hr).
  set (w1 := mkWorld (db w) (fs w) (clock w) (S (nextReader w)) (log w)).
  assert (nextReader w ∉ closedReaders (log w)) as Hnew.
  { intros H. apply T2 in H. lia. }
  destruct (closed (db w)) eqn:Hc.
  - rewrite (setReader_closed _ t w1 Hc). eexists. split; [reflexivity|].
    split; [exact C|]. unfold tidy. cbn. rewrite (Hr eq_refl).
    split; [constructor; assumption|]. split; [|discriminate].
    intros id [->|H]%elem_of_cons; [lia|]. apply T2 in H. lia.
  - destruct (setReader_open (mkReader (nextReader w) b) t w1 Hc Ho)
      as (c & sent & E & Hc' & Eq).
    rewrite Eq. eexists. split; [reflexivity|].
    split; [unfold coherent; cbn; repeat split; auto; discriminate|].
    unfold tidy. cbn. destruct (reader (db w)) as [old|] eqn:Hold.
    + destruct (T3 old eq_refl) as [Hlt Hnot]. cbn.
      split; [constructor; assumption|].
      split; [intros id [->|H]%elem_of_cons; [lia|]; apply T2 in H; lia|].
      intros rd [= <-]. cbn. split; [lia|].
      intros [H|H]%elem_of_cons; [lia|contradiction].
    + split; [assumption|].
      split; [intros id H; apply T2 in H; lia|].
      intros rd [= <-]. cbn. split; [lia|assumption].
Qed.

Lemma kept_openFile env : preserves kept (openFile env).
Proof.
  intros w K.
  destruct (openFile_cases env w)
    as [(e & w' & E & D & F & L & Kc & N)|(data & mtime & gz & b & _ & _ & _ & _ & E)].
  - exists (Some e), w'. split; [exact E|]. destruct K as [C T].
    unfold kept, coherent, tidy. rewrite D, L, N. auto.
  - rewrite E. unfold bind. destruct (kept_install b mtime w K) as (w' & E' & K').
    rewrite E'. exists None, w'. auto.
Qed.

Lemma kept_sendError err : preserves kept (sendError err).
Proof.
  intros w [C T]. pose proof C as (Hq & Ho & He & Hr).
  destruct (closed (db w)) eqn:Hc.
  - rewrite (sendError_closed err w Hc). exists tt, w. split; [reflexivity|]. split; auto.
  - destruct (sendError_open err w Hc He) as (c & sent & E & Hc' & Eq).
    rewrite Eq. eexists _, _. split; [reflexivity|].
    split; [unfold coherent; cbn; rewrite Hc; repeat split; auto; discriminate|].
    exact T.
Qed.

Lemma kept_Close : preserves kept Close.
Proof.
  intros w [C (T1 & T2 & T3)]. pose proof C as (Hq & Ho & He & Hr).
  destruct (closed (db w)) eqn:Hc.
  - rewrite (Close_closed w Hc), (Hr eq_refl). exists tt, w. split; [reflexivity|].
    split; [exact C|]. split; auto.
  - rewrite (Close_open w Hc Hq Ho He). eexists _, _. split; [reflexivity|].
    split; [unfold coherent; cbn; repeat split; auto|].
    unfold tidy. cbn. destruct (reader (db w)) as [rd|] eqn:Hrd; cbn.
    + destruct (T3 rd eq_refl) as [Hlt Hnot].
      split; [constructor; assumption|].
      split; [|discriminate].
      intros id [->|H]%elem_of_cons; [exact Hlt|apply T2, H].
    + split; [assumption|]. split; [exact T2|discriminate].
Qed.

Lemma kept_outside e : preserves kept (outside e).
Proof.
  intros w [C T].
  destruct w as [[fi rd [bq cq xq] [bo co xo] [be ce xe] cl lu ui mr] fsys ck nr lg].
  unfold kept, coherent, tidy in *. cbn in *.
  destruct e; cbn; unfold bind, getDB, getFS, chan.recv; cbn.
  - destruct bo as [|v bo]; [destruct xo|]; cbn; eexists _, _;
      (split; [reflexivity|]); cbn; auto.
  - destruct be as [|v be]; [destruct xe|]; cbn; eexists _, _;
      (split; [reflexivity|]); cbn; auto.
  - eexists _, _. split; [reflexivity|]. cbn. auto.
  - eexists _, _. split; [reflexivity|]. cbn. auto.
  - eexists _, _. split; [reflexivity|]. cbn. auto.
Qed.

Ltac kept_step :=
  match goal with
  | |- preserves _ (bind _ _) => apply preserves_bind; [ | intros ? ]
  | |- preserves _ (ret _) => apply preserves_ret
  | |- preserves _ (match ?x with _ => _ end) => destruct x
  | |- preserves _ (openFile _) => apply kept_openFile
  | |- preserves _ (sendError _) => apply kept_sendError
  | |- preserves _ (emit _) => apply kept_spares, spares_emit; discriminate
  | |- preserves _ _ => solve [ apply kept_spares; auto with spares ]
  end.

Lemma kept_step_ env s : preserves kept (step env s).
Proof.
  destruct s as [op|e]; cbn [step]; [|apply kept_outside].
  destruct op; cbn [perform].
  - intros w K. unfold bind, newReaderObject.
    destruct (kept_install b modtime w K) as (w' & E & K'). rewrite E. eauto.
  - repeat kept_step.
  - repeat kept_step. apply kept_spares, spares_watchFile.
  - unfold watchEventsPass. destruct sel; repeat kept_step.
  - unfold autoUpdateCycle. repeat kept_step. apply kept_spares, spares_runUpdate.
  - repeat kept_step. apply kept_spares, spares_autoUpdateWait.
  - apply kept_sendError.
  - repeat kept_step. apply kept_spares, spares_Lookup.
  - repeat kept_step. apply kept_spares, spares_Date.
  - apply kept_Close.
Qed.

Lemma kept_run env steps : preserves kept (run env steps).
Proof.
  induction steps as [|s rest IH]; cbn [run].
  - apply preserves_ret.
  - apply preserves_bind; [apply kept_step_|intros _; exact IH].
Qed.

(** Which decoders [setReader] closes: the new one on a closed handle, the
    replaced one on an open handle. *)
Lemma setReader_closes rd t w :
  coherent w ->
  exists w',
    setReader rd t w = Done (tt, w') /\
    if closed (db w)
    then reader (db w') = None /\
         closedReaders (log w') = rid rd :: closedReaders (log w)
    else reader (db w') = Some rd /\
         closedReaders (log w')
           = (match reader (db w) with Some old => [rid old] | None => [] end
              ++ closedReaders (log w))%list.
Proof.
  intros (Hq & Ho & He & Hr). destruct (closed (db w)) eqn:Hc.
  - rewrite (setReader_closed rd t w Hc). eexists. split; [reflexivity|].
    cbn. rewrite (Hr eq_refl). auto.
  - destruct (setReader_open rd t w Hc Ho) as (c & sent & E & Hc' & Eq).
    rewrite Eq. eexists. split; [reflexivity|]. cbn.
    destruct (reader (db w)); auto.
Qed.

(** [Close] closes the active decoder, if there is one, and clears it. *)
Lemma Close_closes w :
  coherent w ->
  exists w',
    Close w = Done (tt, w') /\ reader (db w') = None /\
    closedReaders (log w')
      = (match reader (db w) with Some rd => [rid rd] | None => [] end
         ++ closedReaders (log w))%list.
Proof.
  intros (Hq & Ho & He & Hr). destruct (closed (db w)) eqn:Hc.
  - rewrite (Close_closed w Hc), (Hr eq_refl). exists w. rewrite (Hr eq_refl). auto.
  - rewrite (Close_open w Hc Hq Ho He). eexists. split; [reflexivity|]. cbn.
    destruct (reader (db w)); auto.
Qed.

(** X5. Along every execution of a handle, starting before any decoder was
    closed, no decoder is closed twice and the active decoder, the one
    [Lookup] uses, is never a closed one. In every state so reached
    [setReader] closes exactly one decoder, the new one if the handle is
    closed and the one it replaces otherwise (none if there was none), and
    [Close] closes exactly the active decoder and clears it. *)
Theorem decoders_closed_once env f u m w0 steps :
  db w0 = newDB f u m -> closedReaders (log w0) = [] ->
  exists w,
    run env steps w0 = Done (tt, w) /\
    NoDup (closedReaders (log w)) /\
    (forall rd, reader (db w) = Some rd -> rid rd ∉ closedReaders (log w)) /\
    (forall rd t,
        exists w',
          setReader rd t w = Done (tt, w') /\
          if closed (db w)
          then reader (db w') = None /\
               closedReaders (log w') = rid rd :: closedReaders (log w)
          else reader (db w') = Some rd /\
               closedReaders (log w')
                 = (match reader (db w) with Some old => [rid old] | None => [] end
                    ++ closedReaders (log w))%list) /\
    (exists w',
        Close w = Done (tt, w') /\ reader (db w') = None /\
        closedReaders (log w')
          = (match reader (db w) with Some rd => [rid rd] | None => [] end
             ++ closedReaders (log w))%list).
Proof.
  intros D L.
  assert (kept w0) as K0.
  { split; [unfold coherent; rewrite D; cbn; repeat split; auto; discriminate|].
    unfold tidy. rewrite L, D. cbn. split; [constructor|].
    split; [intros id H; inversion H|discriminate]. }
  destruct (kept_run env steps w0 K0) as ([] & w & E & C & T1 & _ & T3).
  exists w. split; [exact E|]. split; [exact T1|].
  split; [intros rd H; exact (proj2 (T3 rd H))|].
  split; [intros rd t; exact (setReader_closes rd t w C)|exact (Close_closes w C)].
Qed.

Lemma decoders_closed_once_witness :
  db Sample.stocked = newDB Sample.dbfile (3600 * time.Second) (60 * time.Second) /\
  closedReaders (log Sample.stocked) = [] /\
  exists w,
    run Sample.env
        [Handle OpOpenFile; Handle (OpWatchPass Sample.modify);
         Handle (OpSetReader (Sample.bs "newer") (Sample.at_ 300)); Handle OpClose;
         Handle OpOpenFile; Handle OpClose]
        Sample.stocked = Done (tt, w) /\
    closedReaders (log w) = [3; 2; 1; 0]%nat /\
    NoDup (closedReaders (log w)) /\
    (forall rd, reader (db w) = Some rd -> rid rd ∉ closedReaders (log w)) /\
    exists w',
      setReader (mkReader 4 (Sample.bs "late")) (Sample.at_ 400) w = Done (tt, w') /\
      reader (db w') = None /\
      closedReaders (log w') = [4; 3; 2; 1; 0]%nat.
Proof.
  split; [reflexivity|]. split; [reflexivity|].
  destruct (decoders_closed_once Sample.env Sample.dbfile _ _ Sample.stocked
              [Handle OpOpenFile; Handle (OpWatchPass Sample.modify);
               Handle (OpSetReader (Sample.bs "newer") (Sample.at_ 300)); Handle OpClose;
               Handle OpOpenFile; Handle OpClose] eq_refl eq_refl)
    as (w & E & T1 & T3 & Hset & _).
  assert (exists v,
             run Sample.env
               [Handle OpOpenFile; Handle (OpWatchPass Sample.modify);
                Handle (OpSetReader (Sample.bs "newer") (Sample.at_ 300)); Handle OpClose;
                Handle OpOpenFile; Handle OpClose]
               Sample.stocked = Done (tt, v) /\
             closedReaders (log v) = [3; 2; 1; 0]%nat /\ closed (db v) = true)
    as (v & Ev & Lv & Cv) by (eexists; split; [|split]; vm_compute; reflexivity).
  assert (v = w) as -> by congruence.
  exists w. split; [exact E|]. split; [exact Lv|]. split; [exact T1|]. split; [exact T3|].
  destruct (Hset (mkReader 4 (Sample.bs "late")) (Sample.at_ 400)) as (w' & Es & H).
  rewrite Cv in H. destruct H as [Hr Hl]. exists w'. split; [exact Es|].
  split; [exact Hr|]. rewrite Hl, Lv. reflexivity.
Defined.


(** * An up-to-date file is not downloaded again *)

Lemma uintValue_grows d acc : 0 <= acc -> acc <= uintValue d acc.
Proof.
  revert acc. induction d; intros acc H; cbn [uintValue]; [lia|..];
    (etransitivity; [|apply IHd; lia]); lia.
Qed.

Lemma uintValue_pos d p :
  uintValue d (Z.pos p) = Z.pos (Pos.of_uint_acc d p).
Proof.
  revert p. induction d; intros p; cbn [uintValue Pos.of_uint_acc]; [reflexivity|..];
    rewrite <- IHd; f_equal; lia.
Qed.

Lemma uintValue_zero d : uintValue d 0 = Z.of_N (Pos.of_uint d).
Proof.
  induction d; cbn [uintValue Pos.of_uint];
    [reflexivity | exact IHd | exact (uintValue_pos d _) ..].
Qed.

(** One digit of the loop of [ParseUint]. *)
Lemma parseDigits_step c k cs acc :
  strconv.digit c = Some k -> 0 <= k <= 9 -> 0 <= acc ->
  10 * acc + k <= strconv.maxUint64 ->
  strconv.parseDigits (c :: cs) acc = strconv.parseDigits cs (10 * acc + k).
Proof.
  unfold strconv.maxUint64. intros Hd Hk H0 Hmax. cbn [strconv.parseDigits]. rewrite Hd.
  change (strconv.maxUint64 / 10 + 1) with 1844674407370955162.
  unfold strconv.maxUint64.
  destruct (Z.geb_spec acc 1844674407370955162) as [Hge|_]; [lia|].
  destruct (Z.gtb_spec (acc * 10 + k) (2 ^ 64 - 1)) as [Hgt|_]; [lia|].
  f_equal. lia.
Qed.

(** The loop of [ParseUint] on the digits that print a number reads the
    number back, as long as it fits 64 bits. *)
Lemma parseDigits_uint d acc :
  0 <= acc -> uintValue d acc <= strconv.maxUint64 ->
  strconv.parseDigits (String.list_ascii_of_string (NilEmpty.string_of_uint d)) acc
    = (uintValue d acc, None).
Proof.
  revert acc.
  induction d; intros acc H0 Hmax;
    cbn [NilEmpty.string_of_uint String.list_ascii_of_string uintValue] in *;
    [reflexivity|..];
    match goal with
    | H : uintValue d (10 * acc + ?k) <= _ |- _ =>
        pose proof (uintValue_grows d (10 * acc + k) ltac:(lia)) as Hg;
        rewrite (parseDigits_step _ k) by (reflexivity || lia);
        apply IHd; [lia|exact H]
    | H : uintValue d (10 * acc) <= _ |- _ =>
        pose proof (uintValue_grows d (10 * acc) ltac:(lia)) as Hg;
        rewrite (parseDigits_step _ 0) by (reflexivity || lia);
        replace (10 * acc + 0) with (10 * acc) by lia;
        apply IHd; [lia|exact H]
    end.
Qed.

(** [strconv.Atoi] reads back what [%d] printed, for every size a file can
    have. *)
Lemma Atoi_sprintd n : 0 <= n <= maxInt64 -> strconv.Atoi (sprintd n) = (n, None).
Proof.
  intros Hn. unfold sprintd, strconv.Atoi, strconv.ParseInt.
  assert (exists d, Z.to_int n = Decimal.Pos d /\ d <> Decimal.Nil /\ uintValue d 0 = n)
    as (d & -> & Hd & Hv).
  { destruct n as [|p|p]; [| |lia].
    - exists (Decimal.D0 Decimal.Nil). repeat split; discriminate.
    - exists (Pos.to_uint p). split; [reflexivity|].
      split; [apply DecimalPos.Unsigned.to_uint_nonnil|].
      rewrite uintValue_zero, DecimalPos.Unsigned.of_to. reflexivity. }
  assert (uintValue d 0 <= strconv.maxUint64) as Hmax
      by (rewrite Hv; unfold strconv.maxUint64, maxInt64 in *; lia).
  pose proof (parseDigits_uint d 0 ltac:(lia) Hmax) as P.
  unfold NilZero.string_of_int, NilZero.string_of_uint.
  destruct d; [congruence|..];
    cbn [NilEmpty.string_of_uint String.list_ascii_of_string] in *;
    cbn [Ascii.eqb Bool.eqb orb negb andb]; unfold strconv.ParseUint; rewrite P, Hv;
    unfold maxInt64 in Hn;
    (destruct (Z.geb_spec n (2 ^ 63)) as [Hge|_]; [lia|]); reflexivity.
Qed.

(** X11. When the peer announces its length in decimal, [needUpdate] makes
    one [HEAD] request and reports the file stale exactly when its size
    differs from the announced length; when they agree [runUpdate] returns
    without an error, makes no [GET] request and leaves the file system as
    it is. *)
Theorem announced_length_decides env url w data mtime n :
  node (fs w) (file (db w)) = Some (File data mtime) ->
  0 <= n <= maxInt64 ->
  http_Head env url = Val (sprintd n) ->
  needUpdate env url w =
    Done ((negb (blen data =? n), None),
          mkWorld (db w) (fs w) (clock w) (nextReader w) (HeadRequest url :: log w)) /\
  (blen data = n ->
   runUpdate env url w =
     Done (None,
           mkWorld (db w) (fs w) (clock w) (nextReader w) (HeadRequest url :: log w))).
Proof.
  intros N Hn H.
  assert (needUpdate env url w =
            Done ((negb (blen data =? n), None),
                  mkWorld (db w) (fs w) (clock w) (nextReader w) (HeadRequest url :: log w)))
    as E.
  { rewrite (needUpdate_present env url w data mtime _ N H), (Atoi_sprintd n Hn).
    reflexivity. }
  split; [exact E|]. intros Heq. unfold runUpdate, bind. rewrite E.
  rewrite (proj2 (Z.eqb_eq _ _) Heq). reflexivity.
Qed.

Lemma announced_length_decides_witness :
  node (fs Sample.stocked) (file (db Sample.stocked))
    = Some (File (Sample.bs "geodata") (Sample.at_ 200)) /\
  0 <= 7 <= maxInt64 /\
  http_Head (Scene.announcing 7) Sample.url = Val (sprintd 7) /\
  runUpdate (Scene.announcing 7) Sample.url Sample.stocked =
    Done (None,
          mkWorld (db Sample.stocked) (fs Sample.stocked) (clock Sample.stocked)
                  (nextReader Sample.stocked) [HeadRequest Sample.url]).
Proof.
  assert (0 <= 7 <= maxInt64) as Hn by (unfold maxInt64; lia).
  split; [reflexivity|]. split; [exact Hn|]. split; [reflexivity|].
  exact (proj2 (announced_length_decides (Scene.announcing 7) Sample.url Sample.stocked
                  (Sample.bs "geodata") (Sample.at_ 200) 7 eq_refl Hn eq_refl) eq_refl).
Defined.


(** * The scheduler while the peer is unreachable *)

Lemma sendError_frame err w :
  coherent w ->
  exists w',
    sendError err w = Done (tt, w') /\ coherent w' /\
    fs w' = fs w /\ log w' = log w /\ clock w' = clock w /\
    file (db w') = file (db w) /\
    updateInterval (db w') = updateInterval (db w) /\
    maxRetryInterval (db w') = maxRetryInterval (db w).
Proof.
  intros C. pose proof C as (Hq & Ho & He & Hr). destruct (closed (db w)) eqn:Hc.
  - rewrite (sendError_closed err w Hc). exists w. auto 10.
  - destruct (sendError_open err w Hc He) as (c & sent & E & Hc' & Eq).
    rewrite Eq. eexists. split; [reflexivity|].
    split; [unfold coherent; cbn; rewrite Hc; repeat split; auto; discriminate|].
    cbn. auto 10.
Qed.

(** A cycle of the scheduler when the local file is there and the [HEAD]
    request fails. *)
Lemma autoUpdateCycle_unreachable env url st w data mtime e :
  coherent w ->
  node (fs w) (file (db w)) = Some (File data mtime) ->
  http_Head env url = Fail e ->
  exists w',
    autoUpdateCycle env url st w =
      Done (nextBackoff (maxRetryInterval (db w)) (updateInterval (db w)) true st, w') /\
    coherent w' /\ fs w' = fs w /\ clock w' = clock w /\
    file (db w') = file (db w) /\
    updateInterval (db w') = updateInterval (db w) /\
    maxRetryInterval (db w') = maxRetryInterval (db w) /\
    pauses (log w') = pauses (log w) /\ downloads (log w') = downloads (log w).
Proof.
  intros C N H.
  unfold autoUpdateCycle, runUpdate, needUpdate, bind, getDB, os_Stat, bind, getFS.
  rewrite N. cbn -[sendError]. rewrite H. cbn -[sendError].
  set (w1 := mkWorld (db w) (fs w) (clock w) (nextReader w) (HeadRequest url :: log w)).
  destruct (sendError_frame ("Database update failed: " +:+ e) w1 C)
    as (w' & E & C' & F & L & K & Hf & Hu & Hm).
  rewrite E. exists w'. rewrite Hu, Hm, L. cbn. auto 10.
Qed.

Lemma autoUpdateFrom_unreachable env url n st w data mtime e :
  coherent w ->
  node (fs w) (file (db w)) = Some (File data mtime) ->
  http_Head env url = Fail e ->
  exists st' w',
    autoUpdateFrom env url (replicate n TimerFired) st w = Done ((Continue, st'), w') /\
    fs w' = fs w /\
    downloads (log w') = downloads (log w) /\
    pauses (log w') =
      (rev (waits (maxRetryInterval (db w)) (updateInterval (db w)) (replicate n true) st)
       ++ pauses (log w))%list.
Proof.
  revert st w. induction n as [|n IH]; intros st w C N H.
  - exists st, w. cbn. auto.
  - cbn [replicate autoUpdateFrom waits]. unfold bind at 1.
    destruct (autoUpdateCycle_unreachable env url st w data mtime e C N H)
      as (w1 & E1 & C1 & F1 & K1 & Hf1 & Hu1 & Hm1 & P1 & G1).
    rewrite E1. cbn [autoUpdateWait]. unfold bind at 1 2. cbn [pause ret].
    set (st1 := nextBackoff _ _ true st).
    set (w2 := mkWorld _ _ _ _ _).
    destruct (IH st1 w2) as (st' & w' & E' & F' & G' & P'); [exact C1| |exact H|].
    { cbn. rewrite F1, Hf1. exact N. }
    exists st', w'. split; [exact E'|]. cbn in *.
    split; [congruence|]. split; [congruence|].
    rewrite P', P1, Hu1, Hm1. cbn [rev]. rewrite <- app_assoc. reflexivity.
Qed.

Lemma waits_from_start maxRetry update n :
  0 <= maxRetry -> 2 * maxRetry <= maxInt64 ->
  waits maxRetry update (replicate n true) (mkBackoff 0 false)
    = map (retryWait maxRetry) (seq 0 n).
Proof.
  intros H0 Hmax. destruct n as [|n]; [reflexivity|].
  cbn [replicate waits]. rewrite nextBackoff_first by reflexivity.
  cbn [sleep seq map retryWait]. f_equal.
  rewrite (waits_failures _ _ _ 0) by (assumption || reflexivity).
  rewrite <- seq_shift, map_map. reflexivity.
Qed.

(** X10. While the local file is in place and the [HEAD] request fails,
    [autoUpdate] goes from cycle to cycle without a [GET] request and without
    touching the file system, and between the cycles it waits 5s, then twice
    the previous wait up to the maximum (for a maximum between 0 and half the
    largest [int64]). *)
Theorem scheduler_retries_unreachable_peer env url n w data mtime e :
  coherent w ->
  node (fs w) (file (db w)) = Some (File data mtime) ->
  http_Head env url = Fail e ->
  0 <= maxRetryInterval (db w) -> 2 * maxRetryInterval (db w) <= maxInt64 ->
  exists st w',
    autoUpdate env url (replicate n TimerFired) w = Done ((Continue, st), w') /\
    fs w' = fs w /\
    downloads (log w') = downloads (log w) /\
    pauses (log w') =
      (rev (map (retryWait (maxRetryInterval (db w))) (seq 0 n)) ++ pauses (log w))%list.
Proof.
  intros C N H H0 Hmax. unfold autoUpdate.
  destruct (autoUpdateFrom_unreachable env url n (mkBackoff 0 false) w data mtime e C N H)
    as (st & w' & E & F & G & P).
  exists st, w'. rewrite <- (waits_from_start _ (updateInterval (db w)) n H0 Hmax). auto.
Qed.

Lemma scheduler_retries_unreachable_peer_witness :
  coherent Sample.stocked /\
  0 <= maxRetryInterval (db Sample.stocked) /\
  2 * maxRetryInterval (db Sample.stocked) <= maxInt64 /\
  exists st w',
    autoUpdate Scene.unreachable Sample.url (replicate 6 TimerFired) Sample.stocked
      = Done ((Continue, st), w') /\
    fs w' = fs Sample.stocked /\
    downloads (log w') = downloads (log Sample.stocked) /\
    pauses (log w') =
      (rev (map (retryWait (maxRetryInterval (db Sample.stocked))) (seq 0 6))
       ++ pauses (log Sample.stocked))%list.
Proof.
  assert (0 <= maxRetryInterval (db Sample.stocked)) as H0 by (vm_compute; discriminate).
  assert (2 * maxRetryInterval (db Sample.stocked) <= maxInt64) as Hmax
      by (vm_compute; discriminate).
  assert (coherent Sample.stocked) as C by apply coherent_newDB.
  split; [exact C|]. split; [exact H0|]. split; [exact Hmax|].
  exact (scheduler_retries_unreachable_peer Scene.unreachable Sample.url 6 Sample.stocked
           (Sample.bs "geodata") (Sample.at_ 200) "no route to host"
           C eq_refl eq_refl H0 Hmax).
Defined.


(** * The loop of the scheduler *)

Lemma unpaused_ret {A} (a : A) : unpaused (ret a).
Proof. intros w. exists a, w. auto. Qed.

Lemma unpaused_bind {A B} (m : M A) (k : A -> M B) :
  unpaused m -> (forall a, unpaused (k a)) -> unpaused (bind m k).
Proof.
  intros Hm Hk w. destruct (Hm w) as (a & w1 & E1 & D1 & P1).
  destruct (Hk a w1) as (b & w2 & E2 & D2 & P2).
  exists b, w2. unfold bind. rewrite E1. split; [exact E2|]. split; congruence.
Qed.

Lemma unpaused_getDB : unpaused getDB.
Proof. intros w. exists (db w), w. auto. Qed.

Lemma unpaused_getFS : unpaused getFS.
Proof. intros w. exists (fs w), w. auto. Qed.

Lemma unpaused_putFS f : unpaused (putFS f).
Proof. intros w. eexists _, _. split; [reflexivity|]. auto. Qed.

Lemma unpaused_time_Now : unpaused time_Now.
Proof. intros w. eexists _, _. split; [reflexivity|]. auto. Qed.

Lemma unpaused_emit e : (forall d, e <> Slept d) -> unpaused (emit e).
Proof.
  intros He w. eexists _, _. split; [reflexivity|]. split; [reflexivity|].
  cbn. destruct e; try reflexivity. destruct (He d eq_refl).
Qed.

Create HintDb unpaused.
#[export] Hint Resolve unpaused_ret unpaused_getDB unpaused_getFS unpaused_putFS
  unpaused_time_Now : unpaused.

Ltac unpaused_step :=
  match goal with
  | |- unpaused (bind _ _) => apply unpaused_bind; [ | intros ? ]
  | |- unpaused (emit _) => apply unpaused_emit; discriminate
  | |- unpaused (match ?x with _ => _ end) => destruct x
  | |- unpaused _ => solve [ auto with unpaused ]
  end.
Ltac unpaused_tac := repeat unpaused_step.

Lemma unpaused_os_Stat p : unpaused (os_Stat p).
Proof. unfold os_Stat. unpaused_tac. Qed.

Lemma unpaused_os_MkdirAll p : unpaused (os_MkdirAll p).
Proof. unfold os_MkdirAll. unpaused_tac. Qed.

Lemma unpaused_os_Create p : unpaused (os_Create p).
Proof. unfold os_Create. unpaused_tac. Qed.

Lemma unpaused_io_Copy p body : unpaused (io_Copy p body).
Proof. unfold io_Copy. unpaused_tac. Qed.

Lemma unpaused_os_Rename old new : unpaused (os_Rename old new).
Proof. unfold os_Rename. unpaused_tac. Qed.

Lemma unpaused_os_RemoveAll p : unpaused (os_RemoveAll p).
Proof. unfold os_RemoveAll. unpaused_tac. Qed.

#[export] Hint Resolve unpaused_os_Stat unpaused_os_MkdirAll unpaused_os_Create
  unpaused_io_Copy unpaused_os_Rename unpaused_os_RemoveAll : unpaused.

Lemma unpaused_makeDir : unpaused makeDir.
Proof. unfold makeDir. unpaused_tac. Qed.

#[export] Hint Resolve unpaused_makeDir : unpaused.

Lemma unpaused_needUpdate env url : unpaused (needUpdate env url).
Proof. unfold needUpdate. unpaused_tac. Qed.

Lemma unpaused_download env url : unpaused (download env url).
Proof. unfold download. unpaused_tac. Qed.

Lemma unpaused_renameFile name : unpaused (renameFile name).
Proof. unfold renameFile. unpaused_tac. Qed.

#[export] Hint Resolve unpaused_needUpdate unpaused_download unpaused_renameFile : unpaused.








(** * An update that succeeds *)

Lemma chars_app a b :
  String.list_ascii_of_string (a +:+ b)
    = (String.list_ascii_of_string a ++ String.list_ascii_of_string b)%list.
Proof.
  induction a as [|c a IH]; [reflexivity|].
  change (c :: String.list_ascii_of_string (a +:+ b)
          = c :: (String.list_ascii_of_string a ++ String.list_ascii_of_string b)%list).
  f_equal. exact IH.
Qed.

Lemma bak_differs a : a +:+ ".bak" <> a.
Proof.
  induction a as [|c a IH]; cbn; [discriminate|]. intros [= H]. exact (IH H).
Qed.

(** The backup lies in the directory of the file. *)
Lemma filepath_Dir_bak a : filepath_Dir (a +:+ ".bak") = filepath_Dir a.
Proof.
  unfold filepath_Dir. rewrite chars_app, rev_app_distr. reflexivity.
Qed.

Lemma ordinary f p : node f p <> Some Dir -> ~ (p = "/" ∨ p = ".").
Proof.
  unfold node. destruct (bool_decide (p = "/" ∨ p = ".")) eqn:E; [congruence|].
  intros _. apply bool_decide_eq_false in E. exact E.
Qed.

Lemma node_insert_ne f k v p : k <> p -> node (<[k := v]> f) p = node f p.
Proof.
  intros H. unfold node. destruct (bool_decide _); [reflexivity|].
  apply lookup_insert_ne, H.
Qed.

Lemma node_insert_eq f k v : ~ (k = "/" ∨ k = ".") -> node (<[k := v]> f) k = Some v.
Proof.
  intros H. unfold node. rewrite bool_decide_eq_false_2 by exact H.
  apply lookup_insert_eq.
Qed.

Lemma node_delete_ne f k p : k <> p -> node (delete k f) p = node f p.
Proof.
  intros H. unfold node. destruct (bool_decide _); [reflexivity|].
  apply lookup_delete_ne, H.
Qed.

Lemma node_delete_eq f k : ~ (k = "/" ∨ k = ".") -> node (delete k f) k = None.
Proof.
  intros H. unfold node. rewrite bool_decide_eq_false_2 by exact H.
  apply lookup_delete_eq.
Qed.

Lemma node_lookup f p : ~ (p = "/" ∨ p = ".") -> node f p = f !! p.
Proof. intros H. unfold node. rewrite bool_decide_eq_false_2 by exact H. reflexivity. Qed.

Lemma os_Create_ok p w :
  node (fs w) p <> Some Dir -> node (fs w) (filepath_Dir p) = Some Dir ->
  os_Create p w =
    Done (None,
          withFS (<[p := File [] {| time.instant := clock w; time.loc := Some "Local" |}]>
                    (fs w)) w).
Proof.
  intros Hp Hd. unfold os_Create, bind, getFS, time_Now. rewrite Hd.
  destruct (node (fs w) p) as [[data mtime|]|]; try reflexivity. congruence.
Qed.

Lemma os_Rename_ok old new w data mtime :
  node (fs w) old = Some (File data mtime) ->
  node (fs w) new <> Some Dir -> node (fs w) (filepath_Dir new) = Some Dir ->
  os_Rename old new w =
    Done (None, withFS (<[new := File data mtime]> (delete old (fs w))) w).
Proof.
  intros Ho Hn Hd. unfold os_Rename, bind, getFS. rewrite Ho, Hd.
  destruct (node (fs w) new) as [[data' mtime'|]|]; try reflexivity. congruence.
Qed.

Lemma os_Rename_missing old new w :
  node (fs w) old = None ->
  exists e, os_Rename old new w = Done (Some e, w).
Proof. intros Ho. unfold os_Rename, bind, getFS. rewrite Ho. eauto. Qed.

Lemma makeDir_present w n :
  node (fs w) (filepath_Dir (file (db w))) = Some n ->
  makeDir w = Done (Val (filepath_Dir (file (db w))), w).
Proof.
  intros H. unfold makeDir, bind, getDB, os_Stat, bind, getFS. rewrite H.
  destruct n; reflexivity.
Qed.

(** The download into a temporary file whose name is free of a directory. *)
Lemma download_ok env url w data :
  http_Get env url = Val (mkBody data None) ->
  node (fs w) (tempName env w) <> Some Dir ->
  node (fs w) (filepath_Dir (tempName env w)) = Some Dir ->
  download env url w =
    Done ((tempName env w, None),
          mkWorld (db w)
                  (<[tempName env w :=
                       File data {| time.instant := clock w; time.loc := Some "Local" |}]>
                     (fs w))
                  (clock w) (nextReader w) (GetRequest url :: log w)).
Proof.
  intros HG HT HD. unfold download. unfold bind at 1. cbn [emit]. rewrite HG.
  unfold bind at 1. cbn [time_Now clock]. fold (tempName env w).
  unfold bind at 1. rewrite os_Create_ok by (cbn; assumption).
  unfold bind at 1, io_Copy, bind, getFS, time_Now, withFS. cbn.
  rewrite insert_insert_eq. reflexivity.
Qed.

(** What [renameFile] does with a file [name] when the directory of the
    database file is in place: the database file, if there is one, becomes
    the backup and [name] becomes the database file. *)
Lemma renameFile_ok name w prev data mtime :
  node (fs w) (file (db w)) = fileNode prev ->
  node (fs w) (filepath_Dir (file (db w))) = Some Dir ->
  node (fs w) (file (db w) +:+ ".bak") <> Some Dir ->
  node (fs w) name = Some (File data mtime) ->
  name <> file (db w) -> name <> file (db w) +:+ ".bak" ->
  renameFile name w =
    Done (None,
          withFS (<[file (db w) := File data mtime]>
                    (delete name
                       match prev with
                       | Some (old, mt) =>
                           <[file (db w) +:+ ".bak" := File old mt]>
                             (delete (file (db w)) (fs w))
                       | None => fs w
                       end)) w).
Proof.
  intros HF HD HB HN Hne1 Hne2.
  assert (filepath_Dir (file (db w)) <> file (db w) +:+ ".bak") as HdB by congruence.
  assert (filepath_Dir (file (db w)) <> file (db w)) as HdF
      by (intros H; rewrite H in HD; rewrite HD in HF; destruct prev as [[]|]; discriminate).
  assert (~ (file (db w) = "/" ∨ file (db w) = ".")) as HoF
      by (apply (ordinary (fs w)); rewrite HF; destruct prev as [[]|]; discriminate).
  unfold renameFile. unfold bind at 1. cbn [getDB]. unfold bind at 1.
  destruct prev as [[old mt]|]; cbn [fileNode] in HF.
  - rewrite (os_Rename_ok _ _ w old mt) by (rewrite ?filepath_Dir_bak; assumption).
    set (w1 := withFS _ w). unfold bind at 1.
    rewrite (makeDir_present w1 Dir)
      by (cbn; rewrite node_insert_ne, node_delete_ne by congruence; exact HD).
    rewrite (os_Rename_ok _ _ w1 data mtime); [reflexivity|..]; cbn.
    + rewrite node_insert_ne, node_delete_ne by congruence. exact HN.
    + rewrite node_insert_ne by (apply bak_differs).
      rewrite node_delete_eq by exact HoF. discriminate.
    + rewrite node_insert_ne, node_delete_ne by congruence. exact HD.
  - destruct (os_Rename_missing (file (db w)) (file (db w) +:+ ".bak") w HF) as [e ->].
    unfold bind at 1. rewrite (makeDir_present w Dir) by exact HD.
    rewrite (os_Rename_ok _ _ w data mtime); [reflexivity|..]; try assumption.
    rewrite HF. discriminate.
Qed.

(** X7. An update that goes through. The local file is missing, or is there
    and the announced length differs from its size; the body arrives whole;
    the directory of the database file and the temporary directory exist and
    neither the backup path nor the temporary name is a directory. Then
    [runUpdate] returns no error, the database file holds the body, the
    temporary file is gone, the backup holds what the database file held (a
    backup that was there stays if there was no database file), and every
    other path is as before. *)
Theorem update_installs_download env url w prev data :
  node (fs w) (file (db w)) = fileNode prev ->
  match prev with
  | Some (old, _) =>
      exists contentLength,
        http_Head env url = Val contentLength /\
        blen old <> (strconv.Atoi contentLength).1
  | None => True
  end ->
  http_Get env url = Val (mkBody data None) ->
  node (fs w) (filepath_Dir (file (db w))) = Some Dir ->
  node (fs w) (file (db w) +:+ ".bak") <> Some Dir ->
  node (fs w) (filepath_Dir (tempName env w)) = Some Dir ->
  node (fs w) (tempName env w) <> Some Dir ->
  tempName env w <> file (db w) -> tempName env w <> file (db w) +:+ ".bak" ->
  exists w',
    runUpdate env url w = Done (None, w') /\ db w' = db w /\
    fs w' !! file (db w)
      = Some (File data {| time.instant := clock w; time.loc := Some "Local" |}) /\
    fs w' !! tempName env w = None /\
    fs w' !! (file (db w) +:+ ".bak")
      = match prev with
        | Some (old, mt) => Some (File old mt)
        | None => fs w !! (file (db w) +:+ ".bak")
        end /\
    forall q, q <> file (db w) -> q <> tempName env w -> q <> file (db w) +:+ ".bak" ->
              fs w' !! q = fs w !! q.
Proof.
  intros HF Hstale HG HD HB HTD HT Hne1 Hne2.
  set (F := file (db w)) in *. set (T := tempName env w) in *.
  set (now := {| time.instant := clock w; time.loc := Some "Local" |}).
  assert (exists l,
             needUpdate env url w =
               Done ((true, None), mkWorld (db w) (fs w) (clock w) (nextReader w) l))
    as [l E1].
  { destruct prev as [[old mt]|]; cbn [fileNode] in HF.
    - destruct Hstale as (cl & HH & Hsize).
      rewrite (needUpdate_present env url w old mt cl HF HH).
      rewrite (proj2 (Z.eqb_neq _ _) Hsize). eauto.
    - rewrite (needUpdate_missing env url w HF). destruct w; eauto. }
  set (w1 := mkWorld (db w) (fs w) (clock w) (nextReader w) l) in E1.
  pose (w2 := mkWorld (db w) (<[T := File data now]> (fs w)) (clock w) (nextReader w)
                      (GetRequest url :: l)).
  assert (download env url w1 = Done ((T, None), w2)) as E2
      by exact (download_ok env url w1 data HG HT HTD).
  assert (T <> filepath_Dir F) as HTd by (intros H; rewrite H in HT; contradiction).
  assert (renameFile T w2 =
            Done (None,
                  withFS (<[file (db w2) := File data now]>
                            (delete T
                               match prev with
                               | Some (old, mt) =>
                                   <[file (db w2) +:+ ".bak" := File old mt]>
                                     (delete (file (db w2)) (fs w2))
                               | None => fs w2
                               end)) w2)) as E3.
  { apply (renameFile_ok T w2 prev data now); unfold w2; cbn [fs db]; fold F;
      rewrite ?node_insert_ne by congruence; try assumption.
    apply node_insert_eq, (ordinary (fs w)), HT. }
  unfold runUpdate, bind. rewrite E1. cbv beta iota. rewrite E2. cbv beta iota.
  rewrite E3. cbv beta iota.
  eexists. split; [reflexivity|]. unfold w2. cbn [withFS fs db]. fold F.
  split; [reflexivity|].
  assert (F +:+ ".bak" <> F) as HBF by apply bak_differs.
  split; [apply lookup_insert_eq|].
  split; [rewrite lookup_insert_ne by congruence; apply lookup_delete_eq|].
  split.
  - rewrite lookup_insert_ne, lookup_delete_ne by congruence.
    destruct prev as [[old mt]|]; [apply lookup_insert_eq|].
    apply lookup_insert_ne. congruence.
  - intros q H1 H2 H3. rewrite lookup_insert_ne, lookup_delete_ne by congruence.
    destruct prev as [[old mt]|].
    + rewrite lookup_insert_ne, lookup_delete_ne, lookup_insert_ne by congruence.
      reflexivity.
    + apply lookup_insert_ne. congruence.
Qed.

Lemma update_installs_download_witness :
  node (fs Sample.stocked) (file (db Sample.stocked))
    = fileNode (Some (Sample.bs "geodata", Sample.at_ 200)) /\
  http_Head Sample.env Sample.url = Val "5" /\
  blen (Sample.bs "geodata") <> (strconv.Atoi "5").1 /\
  http_Get Sample.env Sample.url = Val (mkBody (Sample.bs "hello") None) /\
  tempName Sample.env Sample.stocked = Sample.tmpfile /\
  exists w',
    runUpdate Sample.env Sample.url Sample.stocked = Done (None, w') /\
    db w' = db Sample.stocked /\
    fs w' !! file (db Sample.stocked)
      = Some (File (Sample.bs "hello")
                   {| time.instant := clock Sample.stocked; time.loc := Some "Local" |}) /\
    fs w' !! tempName Sample.env Sample.stocked = None /\
    fs w' !! (file (db Sample.stocked) +:+ ".bak")
      = Some (File (Sample.bs "geodata") (Sample.at_ 200)).
Proof.
  assert (blen (Sample.bs "geodata") <> (strconv.Atoi "5").1) as Hsize
      by (vm_compute; discriminate).
  assert (tempName Sample.env Sample.stocked = Sample.tmpfile) as HT
      by (vm_compute; reflexivity).
  assert (node (fs Sample.stocked) (filepath_Dir (file (db Sample.stocked))) = Some Dir)
    as HD by (vm_compute; reflexivity).
  assert (node (fs Sample.stocked) (file (db Sample.stocked) +:+ ".bak") <> Some Dir)
    as HB by (vm_compute; discriminate).
  assert (node (fs Sample.stocked) (filepath_Dir (tempName Sample.env Sample.stocked))
          = Some Dir) as HTD by (vm_compute; reflexivity).
  assert (node (fs Sample.stocked) (tempName Sample.env Sample.stocked) <> Some Dir)
    as HTn by (vm_compute; discriminate).
  assert (tempName Sample.env Sample.stocked <> file (db Sample.stocked)) as Hne1
      by (rewrite HT; vm_compute; discriminate).
  assert (tempName Sample.env Sample.stocked <> file (db Sample.stocked) +:+ ".bak")
    as Hne2 by (rewrite HT; vm_compute; discriminate).
  destruct (update_installs_download Sample.env Sample.url Sample.stocked
              (Some (Sample.bs "geodata", Sample.at_ 200)) (Sample.bs "hello")
              eq_refl (ex_intro _ "5" (conj eq_refl Hsize)) eq_refl HD HB HTD HTn Hne1 Hne2)
    as (w' & E & D & HF & HTg & HBk & _).
  split; [reflexivity|]. split; [reflexivity|]. split; [exact Hsize|].
  split; [reflexivity|]. split; [exact HT|].
  exists w'. auto.
Defined.


(** A directory at the database path is moved aside like a file: the
    backup takes it with what is in it, and the download is installed. *)
Example update_moves_directory_aside :
  exists w',
    runUpdate Sample.env Sample.url Scene.occupied = Done (None, w') /\
    fs w' !! Sample.dbfile
      = Some (File (Sample.bs "hello") (Sample.at_ 63000000000000000000)) /\
    fs w' !! (Sample.dbfile +:+ ".bak") = Some Dir /\
    fs w' !! (Sample.dbfile +:+ ".bak/x") = Some (File (Sample.bs "x") (Sample.at_ 50)) /\
    fs w' !! (Sample.dbfile +:+ "/x") = None /\
    fs w' !! Sample.tmpfile = None.
Proof.
  eexists. split; [|split; [|split; [|split; [|split]]]]; vm_compute; reflexivity.
Qed.

(** * A load followed by a lookup, and the handle after [Close] *)

Lemma Lookup_unfold env addr w :
  Lookup env addr w =
    Done (match reader (db w) with
          | Some rd => maxminddb_Lookup env (rbuf rd) addr
          | None => (None, Some ErrUnavailable)
          end, w).
Proof. unfold Lookup, bind, getDB. destruct (reader (db w)); reflexivity. Qed.

(** X12. After [openFile] returned no error on an open handle, [Lookup]
    answers with what the decoder finds in the decompressed content of the
    file. On a closed handle [openFile] returns no error all the same, but
    the decoder it built was closed, the handle is as before and [Lookup]
    answers [ErrUnavailable]. *)
Theorem load_then_Lookup env w w' addr :
  coherent w -> openFile env w = Done (None, w') ->
  exists data mtime gz b,
    node (fs w) (file (db w)) = Some (File data mtime) /\
    gzip_NewReader env data = Val gz /\ ioutil_ReadAll env gz = Val b /\
    if closed (db w)
    then db w' = db w /\ log w' = ReaderClosed (nextReader w) :: log w /\
         Lookup env addr w' = Done ((None, Some ErrUnavailable), w')
    else Lookup env addr w' = Done (maxminddb_Lookup env b addr, w').
Proof.
  intros C E.
  destruct (openFile_cases env w)
    as [(e & w1 & E1 & _)|(data & mtime & gz & b & N & G & R & J & E1)]; [congruence|].
  exists data, mtime, gz, b. split; [exact N|]. split; [exact G|]. split; [exact R|].
  rewrite E1 in E. unfold bind in E. pose proof C as (Hq & Ho & He & Hr).
  set (w1 := mkWorld (db w) (fs w) (clock w) (S (nextReader w)) (log w)) in E.
  destruct (closed (db w)) eqn:Hc.
  - rewrite (setReader_closed _ mtime w1 Hc) in E. cbn in E. unfold ret in E.
    assert (w' = mkWorld (db w) (fs w) (clock w) (S (nextReader w))
                         (ReaderClosed (nextReader w) :: log w)) as -> by congruence.
    split; [reflexivity|]. split; [reflexivity|].
    rewrite Lookup_unfold. cbn [db reader]. rewrite (Hr eq_refl). reflexivity.
  - destruct (setReader_open (mkReader (nextReader w) b) mtime w1 Hc Ho)
      as (c & sent & _ & _ & Eq).
    rewrite Eq in E. cbn in E. unfold ret in E.
    rewrite Lookup_unfold.
    assert (reader (db w') = Some (mkReader (nextReader w) b)) as ->
        by (injection E as <-; reflexivity).
    reflexivity.
Qed.

Lemma load_then_Lookup_witness :
  coherent Sample.stocked /\
  openFile Sample.env Sample.stocked = Done (None, Sample.loaded) /\
  exists data mtime gz b,
    node (fs Sample.stocked) (file (db Sample.stocked)) = Some (File data mtime) /\
    gzip_NewReader Sample.env data = Val gz /\ ioutil_ReadAll Sample.env gz = Val b /\
    if closed (db Sample.stocked)
    then db Sample.loaded = db Sample.stocked /\
         log Sample.loaded = ReaderClosed (nextReader Sample.stocked) :: log Sample.stocked /\
         Lookup Sample.env (Sample.bs "addr") Sample.loaded
           = Done ((None, Some ErrUnavailable), Sample.loaded)
    else Lookup Sample.env (Sample.bs "addr") Sample.loaded
           = Done (maxminddb_Lookup Sample.env b (Sample.bs "addr"), Sample.loaded).
Proof.
  assert (coherent Sample.stocked) as C by apply coherent_newDB.
  assert (openFile Sample.env Sample.stocked = Done (None, Sample.loaded)) as E
      by (vm_compute; reflexivity).
  split; [exact C|]. split; [exact E|].
  exact (load_then_Lookup Sample.env Sample.stocked Sample.loaded (Sample.bs "addr") C E).
Defined.

(** X13. [Close] keeps the timestamp and what is unread in the channels:
    afterwards [Date] still returns the time of the last load, and a consumer
    of [NotifyOpen] or [NotifyError] is never blocked: it first receives what
    was sent before the close. *)
Theorem Close_keeps_timestamp_and_unread w :
  coherent w ->
  exists w',
    Close w = Done (tt, w') /\
    Date w' = Done (lastUpdated (db w), w') /\
    chan.buf (NotifyOpen (db w')) = chan.buf (NotifyOpen (db w)) /\
    chan.buf (NotifyError (db w')) = chan.buf (NotifyError (db w)) /\
    is_Some (chan.recv (NotifyOpen (db w'))) /\
    is_Some (chan.recv (NotifyError (db w'))).
Proof.
  intros C. pose proof C as (Hq & Ho & He & Hr).
  assert (forall A (c : chan.t A), chan.closed c = true -> is_Some (chan.recv c)) as Hrecv.
  { intros A c Hc. unfold chan.recv. rewrite Hc. destruct (chan.buf c); eauto. }
  unfold Date, bind, getDB, ret, NotifyOpen, NotifyError.
  destruct (closed (db w)) eqn:Hc.
  - rewrite (Close_closed w Hc), (Hr eq_refl). exists w.
    repeat split; auto; apply Hrecv; congruence.
  - rewrite (Close_open w Hc Hq Ho He). eexists. split; [reflexivity|]. cbn.
    repeat split; auto; apply Hrecv; reflexivity.
Qed.

Lemma Close_keeps_timestamp_and_unread_witness :
  coherent Scene.notified /\
  exists w',
    Close Scene.notified = Done (tt, w') /\
    Date w' = Done (lastUpdated (db Scene.notified), w') /\
    chan.buf (NotifyOpen (db w')) = chan.buf (NotifyOpen (db Scene.notified)) /\
    chan.buf (NotifyError (db w')) = chan.buf (NotifyError (db Scene.notified)) /\
    is_Some (chan.recv (NotifyOpen (db w'))) /\
    is_Some (chan.recv (NotifyError (db w'))).
Proof.
  assert (coherent Scene.notified) as C
      by (vm_compute; repeat split; auto; discriminate).
  split; [exact C|]. exact (Close_keeps_timestamp_and_unread Scene.notified C).
Defined.
